(** * HDF5-UDF: the C++ backend and the sandbox library

    A shallow embedding of [cpp_backend.cpp] (codec framing, compile driver,
    executor, dataset-reference scanner) and of the path-validating
    interceptor of [sandbox_library.cpp], with the properties the
    specification states about them.

    Conventions.
    - A [std::string] holding binary data is a [list byte]; one holding a
      path or a diagnostic is a [string]; one holding program text is a
      [list ascii].
    - [size_t] and [uint64_t] values are [Z] with the wrap-around written
      out ([size_t]).
    - A function that touches the file system, the standard error stream or
      the caller's memory is a computation in the monad [M] over [process].
    - An access outside a buffer is the outcome [OutOfBounds]: the C++ code
      has undefined behaviour there and the model says so instead of
      inventing a value.
    - An exception the C++ library throws on a check of its own
      ([std::out_of_range], [std::length_error]) is the outcome [Throws].
      Memory is taken to be available: the model has no [std::bad_alloc]. *)

From Stdlib Require Import ZArith Lia List String Ascii Bool.
From stdpp Require Import base gmap strings list pretty.
From coqutil Require Import Byte Word.LittleEndianList.
Import ListNotations.
Local Open Scope Z_scope.

(** The bytes of a buffer. *)
Abbreviation byte := Init.Byte.byte.

(** ** Machine integers *)

(** Reduction of a mathematical integer to an unsigned 64-bit one, as the
    arithmetic of [size_t] and [uint64_t] does on the hosts the backend
    targets. *)
Definition size_t (z : Z) : Z := z mod 2 ^ 64.

(** [std::string::npos]. *)
Definition npos : Z := 2 ^ 64 - 1.

(** ** Outcomes and the process monad *)

(** How a call made by a process ends: it returns a value; or the process
    ends first, by [_exit(code)], by a successful [execvp] that replaces its
    image, or by a signal; or a C++ exception leaves the call; or the call
    reads or writes outside a buffer. *)
Inductive outcome (A : Type) : Type :=
| Returns (a : A)
| Exits (code : Z)
| Execs (argv : list string)
| Killed (signal : Z)
| Throws (what : string)
| OutOfBounds.
Arguments Returns {A} a.
Arguments Exits {A} code.
Arguments Execs {A} argv.
Arguments Killed {A} signal.
Arguments Throws {A} what.
Arguments OutOfBounds {A}.

(** The same ending at another result type, for the endings that carry no
    value. *)
Definition outcome_bind {A B} (o : outcome A) (k : A -> outcome B) : outcome B :=
  match o with
  | Returns a => k a
  | Exits c => Exits c
  | Execs argv => Execs argv
  | Killed s => Killed s
  | Throws w => Throws w
  | OutOfBounds => OutOfBounds
  end.

(** A file of the file system: its bytes and its permission bits. *)
Record file : Type := File { contents : list byte; mode : Z }.

(** What a process of the backend can observe and change: the file system,
    the lines written to the standard error stream (oldest first), and the
    caller's memory as blocks indexed by their base address. *)
Record process : Type := Process {
  files : gmap string file;
  stderr : list string;
  memory : gmap Z (list byte)
}.

Definition M (A : Type) : Type := process -> outcome (A * process).

Definition ret {A} (a : A) : M A := fun p => Returns (a, p).

Definition bind {A B} (m : M A) (k : A -> M B) : M B :=
  fun p => outcome_bind (m p) (fun ap => k (fst ap) (snd ap)).

Definition lift {A} (o : outcome A) : M A :=
  fun p => outcome_bind o (fun a => Returns (a, p)).

Declare Scope proc_scope.
Delimit Scope proc_scope with proc.
Notation "x <- m ;; k" := (bind m (fun x => k))
  (at level 100, m at next level, right associativity) : proc_scope.
Notation "m ;; k" := (bind m (fun _ => k))
  (at level 100, right associativity) : proc_scope.
Local Open Scope proc_scope.

(** [fprintf(stderr, ...)] of one line. *)
Definition fprintf_stderr (line : string) : M unit :=
  fun p => Returns (tt, Process (files p) (stderr p ++ [line]) (memory p)).

(** [unlink(path)]. *)
Definition unlink (path : string) : M unit :=
  fun p => Returns (tt, Process (delete path (files p)) (stderr p) (memory p)).

(** [chmod(path, m)]. *)
Definition chmod (path : string) (m : Z) : M unit :=
  fun p => Returns (tt, Process (alter (fun f => File (contents f) m) path (files p))
                                (stderr p) (memory p)).

(** ** Buffers *)

(** [n] bytes read at offset [off] of [buf] (a [memcpy] out of a buffer). *)
Definition load (buf : list byte) (off n : Z) : outcome (list byte) :=
  if (0 <=? off) && (off + n <=? Z.of_nat (length buf))
  then Returns (take (Z.to_nat n) (drop (Z.to_nat off) buf))
  else OutOfBounds.

(** [bytes] written at offset [off] of [buf] (a [memcpy] into a buffer). *)
Definition store (buf : list byte) (off : Z) (bytes : list byte) : outcome (list byte) :=
  if (0 <=? off) && (off + Z.of_nat (length bytes) <=? Z.of_nat (length buf))
  then Returns (take (Z.to_nat off) buf ++ bytes
                ++ drop (Z.to_nat off + length bytes) buf)
  else OutOfBounds.

(** [std::string::max_size()] of libstdc++ on the 64-bit hosts the backend
    targets. *)
Definition max_size : Z := 2 ^ 62 - 1.

(** [buf] cut after its first [n] bytes, or followed by NUL bytes up to
    [n]. *)
Definition resized (buf : list byte) (n : Z) : list byte :=
  take (Z.to_nat n) buf ++ repeat Byte.x00 (Z.to_nat n - length buf).

(** [std::string::resize(n)]: truncation, or padding with NUL bytes; a
    size beyond [max_size()] is refused with [std::length_error]. *)
Definition resize (buf : list byte) (n : Z) : outcome (list byte) :=
  if max_size <? n then Throws "std::length_error"
  else Returns (resized buf n).

(** ** The miniz codec

    [miniz.h] is a third-party library outside the backend; the backend
    uses three of its entry points, taken here as parameters.
    [mz_compress dest_len source] and [mz_uncompress dest_len source] give
    the status and the bytes the library writes at the start of the
    destination buffer of capacity [dest_len]; the length of those bytes is
    the value the library leaves in [*pDest_len]. *)
Record Miniz : Type := {
  mz_compressBound : Z -> Z;
  mz_compress : Z -> list byte -> Z * list byte;
  mz_uncompress : Z -> list byte -> Z * list byte
}.

Definition Z_OK : Z := 0.
Definition Z_BUF_ERROR : Z := -5.

Section Codec.
Variable mz : Miniz.

(** [CppBackend::compressBuffer]. *)
Definition compressBuffer (data : list byte) : M (list byte) :=
  let usize := Z.of_nat (length data) in
  let csize := mz_compressBound mz usize in
  compressed <- lift (resize [] csize) ;;
  let '(status, out) := mz_compress mz csize data in
  compressed <- lift (store compressed 0 out) ;;
  let csize := Z.of_nat (length out) in
  if negb (status =? Z_OK) then
    fprintf_stderr "Failed to compress input buffer" ;;
    ret []
  else
    compressed <- lift (store compressed csize (le_split 8 usize)) ;;
    compressed <- lift (resize compressed (csize + 8)) ;;
    ret compressed.

(** [CppBackend::decompressBuffer]; [data] is the buffer of [csize] bytes
    the caller passes. *)
Definition decompressBuffer (data : list byte) : M (list byte) :=
  let csize := Z.of_nat (length data) in
  trailer <- lift (load data (size_t (csize - 8)) 8) ;;
  let usize := le_combine trailer in
  let csize := size_t (csize - 8) in
  uncompressed <- lift (resize [] usize) ;;
  let '(status, out) := mz_uncompress mz usize (take (Z.to_nat csize) data) in
  uncompressed <- lift (store uncompressed 0 out) ;;
  if negb (status =? Z_OK) then
    fprintf_stderr ("Failed to uncompress shared library object: " +:+ pretty status) ;;
    ret []
  else
    ret uncompressed.

End Codec.

(** What the backend relies on from miniz at the input [x]: compression
    to the bound succeeds with output [c], the output leaves below the bound
    the eight bytes [compressBuffer] writes after it, the bound is a size a
    [std::string] can take, and decompression of [c] into a buffer of the
    size of [x] gives [x] back. *)
Definition codec_round_trip (mz : Miniz) (x c : list byte) : Prop :=
  let bound := mz_compressBound mz (Z.of_nat (length x)) in
  mz_compress mz bound x = (Z_OK, c)
  /\ Z.of_nat (length c) + 8 <= bound <= max_size
  /\ mz_uncompress mz (Z.of_nat (length x)) c = (Z_OK, x).

(** A codec that stores its input unchanged, used to run the model on
    concrete inputs. It reports [Z_BUF_ERROR] when the destination is too
    small, as miniz does. *)
Definition stored_codec : Miniz := {|
  mz_compressBound := fun n => n + 128;
  mz_compress := fun dest_len source =>
    if Z.of_nat (length source) <=? dest_len then (Z_OK, source) else (Z_BUF_ERROR, []);
  mz_uncompress := fun dest_len source =>
    if Z.of_nat (length source) <=? dest_len then (Z_OK, source) else (Z_BUF_ERROR, [])
|}.

Definition empty_process : process := Process ∅ [] ∅.

(** ** Dataset descriptors and runtime tables *)

(** Modelled from the spec: [dataset.h], which declares [DatasetInfo], is
    not among the sources. A descriptor has a name, an element data type
    tag, the dimension extents, the element storage size in bytes and a
    pointer to its values. *)
Record DatasetInfo : Type := {
  name : string;
  datatype : string;
  dimensions : list Z;
  storage_size : Z;
  data : Z
}.

(** Modelled from the spec: [DatasetInfo::getGridSize] is declared in
    [dataset.h]; [grid_size = product(dimensions)]. *)
Definition getGridSize (d : DatasetInfo) : Z := foldr Z.mul 1 (dimensions d).

(** Modelled from the spec: [DatasetInfo::getStorageSize] is declared in
    [dataset.h]; it is the element storage size in bytes. *)
Definition getStorageSize (d : DatasetInfo) : Z := storage_size d.

(** Modelled from the spec: [DatasetInfo::getDatatype] is declared in
    [dataset.h]; it is the element data type tag. *)
Definition getDatatype (d : DatasetInfo) : string := datatype d.

(** Modelled from the spec: [anon_mmap.h], which declares
    [AnonymousMemoryMap], is not among the sources. A mapping of [size]
    bytes just created holds zeroes. *)
Definition fresh_region (size : Z) : list byte := resized [] size.

(** The four vectors a compiled UDF exports. *)
Record tables : Type := Tables {
  hdf5_udf_data : list Z;
  hdf5_udf_names : list string;
  hdf5_udf_types : list string;
  hdf5_udf_dims : list (list Z)
}.

(** One round of the loop of [run] that fills the tables. *)
Definition push_dataset (t : tables) (d : DatasetInfo) : tables :=
  Tables (hdf5_udf_data t ++ [data d])
         (hdf5_udf_names t ++ [name d])
         (hdf5_udf_types t ++ [getDatatype d])
         (hdf5_udf_dims t ++ [dimensions d]).

(** How the entry point of a UDF ends. A UDF that never ends keeps the
    parent in [waitpid]; the model describes the invocations in which the
    child ends. *)
Inductive udf_end : Type :=
| UdfReturns
| UdfKilled (signal : Z).

(** ** The host

    Everything [cpp_backend.cpp] calls and does not define: the base class
    [Backend], [AnonymousMemoryMap], [SharedLibraryManager], [Sandbox], the
    operating system and the compiled UDF. Each is a parameter, so that a
    property of the backend holds whatever they do. *)
Record Host : Type := {
  (** the codec *)
  miniz : Miniz;
  (** whether the backend is built with [ENABLE_SANDBOX] *)
  ENABLE_SANDBOX : bool;
  (** [Backend::assembleUDF(udf_file, template_file, placeholder,
      extension)]: the path of the assembled source, empty on failure *)
  assembleUDF : string -> string -> string -> string ->
                gmap string file -> string * gmap string file;
  (** [Backend::writeToDisk(data, size, extension)]: the path of the file
      written, empty on failure *)
  writeToDisk : list byte -> string -> gmap string file -> string * gmap string file;
  (** the value [fork()] returns in the process under consideration *)
  fork : Z;
  (** the value [pipe()] returns *)
  pipe : Z;
  (** whether [execvp(argv[0], argv)] replaces the process image *)
  execvp : list string -> bool;
  (** the file system once the child that executes [argv] has been waited
      for *)
  spawned : list string -> gmap string file -> gmap string file;
  (** the text the parent has read from the pipe of the child that executes
      [argv] when its reading loop ends *)
  piped : list string -> gmap string file -> list ascii;
  (** [AnonymousMemoryMap(size).create()]: the address [mm] of the mapping,
      or a failure *)
  mm_create : Z -> option Z;
  (** [SharedLibraryManager::open(path)] *)
  shlib_open : string -> bool;
  (** [SharedLibraryManager::loadsym(name)]: an address, 0 for [NULL] *)
  shlib_loadsym : string -> Z;
  (** the vectors of the shared object as it initialises them *)
  shlib_tables : tables;
  (** [Sandbox::init(filterpath)] *)
  sandbox_init : string -> bool;
  (** the entry point [dynamic_dataset]: from the tables and the shared
      region, how it ends and what it leaves in the region *)
  udf : tables -> list byte -> udf_end * list byte;
  (** a mapping keeps its size whatever is written into it *)
  udf_keeps_size : forall t region, length (snd (udf t region)) = length region
}.

Section Backend.
Variable host : Host.

(** A call of the host on the file system. *)
Definition on_files {A} (f : gmap string file -> A * gmap string file) : M A :=
  fun p => let '(a, fs) := f (files p) in
           Returns (a, Process fs (stderr p) (memory p)).

(** [execvp(cmd[0], cmd)]: it returns only when it fails. *)
Definition do_execvp (cmd : list string) : M unit :=
  fun p => if execvp host cmd then Execs cmd else Returns (tt, p).

(** [wait4]/[waitpid] on the child that executes [cmd]. *)
Definition wait_spawned (cmd : list string) : M unit :=
  fun p => Returns (tt, Process (spawned host cmd (files p)) (stderr p) (memory p)).

(** [stat(path, &statbuf) == 0]. *)
Definition stat_ok (path : string) : M bool :=
  fun p => Returns (bool_decide (is_Some (files p !! path)), p).

(** The bytes an [std::ifstream] opened on [path] delivers. *)
Definition read_file (path : string) : M (list byte) :=
  fun p => Returns (match files p !! path with
                    | Some f => contents f
                    | None => []
                    end, p).

(** [CppBackend::name] and [CppBackend::extension]. *)
Definition backend_name : string := "C++".
Definition extension : string := ".cpp".

(** [CppBackend::compile]. *)
Definition compile (udf_file template_file : string) : M (list byte) :=
  let placeholder := "// user_callback_placeholder"%string in
  cpp_file <- on_files (assembleUDF host udf_file template_file placeholder extension) ;;
  if (String.length cpp_file =? 0)%nat then
    fprintf_stderr "Will not be able to compile the UDF code" ;;
    ret []
  else
    let output := (udf_file +:+ ".so")%string in
    let cmd := ["g++"; "-rdynamic"; "-shared"; "-fPIC"; "-flto"; "-Os"; "-C"; "-o";
                output; cpp_file]%string in
    let pid := fork host in
    if pid =? 0 then
      do_execvp cmd ;;
      fprintf_stderr "Failed to execute g++" ;;
      ret []
    else if 0 <? pid then
      wait_spawned cmd ;;
      found <- stat_ok output ;;
      bytecode <- (if found : bool then
                     buffer <- read_file output ;;
                     unlink output ;;
                     ret buffer
                   else ret []) ;;
      unlink cpp_file ;;
      compressBuffer (miniz host) bytecode
    else
      fprintf_stderr "Failed to execute g++" ;;
      ret [].

(** The block of [run] the forked child executes, from the path of the
    shared object, the address of the shared region and its contents: how
    the block ends in the child, and the contents of the region then. *)
Definition run_child (filterpath : string) (input_datasets : list DatasetInfo)
    (output_dataset : DatasetInfo) (so_file : string) (mm : Z) (region : list byte)
  : outcome bool * list byte :=
  if negb (shlib_open host so_file) then (Returns false, region)
  else
    let udf_sym := shlib_loadsym host "dynamic_dataset" in
    let data_sym := shlib_loadsym host "hdf5_udf_data" in
    let names_sym := shlib_loadsym host "hdf5_udf_names" in
    let types_sym := shlib_loadsym host "hdf5_udf_types" in
    let dims_sym := shlib_loadsym host "hdf5_udf_dims" in
    if (udf_sym =? 0) || (data_sym =? 0) || (names_sym =? 0) || (types_sym =? 0)
       || (dims_sym =? 0)
    then (Returns false, region)
    else
      let output_dataset_copy :=
        {| name := name output_dataset; datatype := datatype output_dataset;
           dimensions := dimensions output_dataset;
           storage_size := storage_size output_dataset; data := mm |} in
      let dataset_info := [output_dataset_copy] ++ input_datasets in
      let filled := fold_left push_dataset dataset_info (shlib_tables host) in
      let ready := if ENABLE_SANDBOX host then sandbox_init host filterpath else true in
      if ready then
        match udf host filled region with
        | (UdfReturns, region') => (Exits 0, region')
        | (UdfKilled s, region') => (Killed s, region')
        end
      else (Exits 1, region).

(** [memcpy(dst, src, n)] into the block of the caller's memory at [dst]. *)
Definition memcpy_out (dst : Z) (src : list byte) (n : Z) : M unit :=
  fun p => match memory p !! dst with
           | Some buf =>
               outcome_bind (load src 0 n) (fun bytes =>
               outcome_bind (store buf 0 bytes) (fun buf' =>
               Returns (tt, Process (files p) (stderr p) (<[dst := buf']> (memory p)))))
           | None => OutOfBounds
           end.

(** [CppBackend::run]. In the parent, [waitpid] returns once the child has
    ended, and the shared region then holds what [run_child] left in it. *)
Definition run (filterpath : string) (input_datasets : list DatasetInfo)
    (output_dataset : DatasetInfo) (output_cast_datatype : string)
    (sharedlib_data : list byte) : M bool :=
  decompressed_shlib <- decompressBuffer (miniz host) sharedlib_data ;;
  if (length decompressed_shlib =? 0)%nat then
    fprintf_stderr "Will not be able to load the UDF function" ;;
    ret false
  else
    let ext := extension in
    so_file <- on_files (writeToDisk host decompressed_shlib ext) ;;
    if (String.length so_file =? 0)%nat then
      fprintf_stderr "Will not be able to load the UDF function" ;;
      ret false
    else
      chmod so_file 493 (* 0755 *) ;;
      let room_size := size_t (getGridSize output_dataset * getStorageSize output_dataset) in
      match mm_create host room_size with
      | None =>
          unlink so_file ;;
          ret false
      | Some mm =>
          let region := fresh_region room_size in
          let pid := fork host in
          if pid =? 0 then
            lift (fst (run_child filterpath input_datasets output_dataset so_file mm region))
          else
            (if 0 <? pid then
               let region' :=
                 snd (run_child filterpath input_datasets output_dataset so_file mm region) in
               memcpy_out (data output_dataset) region' room_size
             else ret tt) ;;
            unlink so_file ;;
            ret true
      end.

End Backend.

(** ** Text: the members of [std::string] the scanner uses *)

Definition size (s : list ascii) : Z := Z.of_nat (length s).

(** Whether [s] begins with [t]. *)
Fixpoint starts_with (t s : list ascii) : bool :=
  match t, s with
  | [], _ => true
  | a :: t', b :: s' => Ascii.eqb a b && starts_with t' s'
  | _ :: _, [] => false
  end.

(** [s.find(t)], searching from a position whose index is [pos]. *)
Fixpoint find_from (s t : list ascii) (pos : Z) : Z :=
  if starts_with t s then pos
  else match s with
       | [] => npos
       | _ :: s' => find_from s' t (pos + 1)
       end.

(** [s.find(t)]: the index of the first occurrence of [t], or [npos]. *)
Definition find (s t : list ascii) : Z := find_from s t 0.

Fixpoint find_first_of_from (s chars : list ascii) (pos : Z) : Z :=
  match s with
  | [] => npos
  | c :: s' => if existsb (Ascii.eqb c) chars then pos
               else find_first_of_from s' chars (pos + 1)
  end.

(** [s.find_first_of(chars)]: the index of the first character of [s] that
    is one of [chars], or [npos]. *)
Definition find_first_of (s chars : list ascii) : Z := find_first_of_from s chars 0.

(** [s.substr(pos, len)]; [s.substr(pos)] is [substr s pos npos]. *)
Definition substr (s : list ascii) (pos len : Z) : outcome (list ascii) :=
  if size s <? pos then Throws "std::out_of_range"
  else Returns (take (Z.to_nat (Z.min len (size s - pos))) (drop (Z.to_nat pos) s)).

(** The lines [std::getline] delivers from [input], with [cur] the
    characters of the current line read so far, last first. *)
Fixpoint getlines_from (cur input : list ascii) : list (list ascii) :=
  match input with
  | [] => match cur with
          | [] => []
          | _ :: _ => [rev cur]
          end
  | c :: rest => if Ascii.eqb c "010"%char then rev cur :: getlines_from [] rest
                 else getlines_from (c :: cur) rest
  end.

Definition getlines (input : list ascii) : list (list ascii) := getlines_from [] input.

Definition api_call : list ascii := list_ascii_of_string "lib.getData".
(** The double quote, the argument of both calls of [find_first_of]. *)
Definition dquote : list ascii := ["034"%char].

Section Scanner.
Variable host : Host.

(** The body of the loop of [udfDatasetNames] over the lines of the
    preprocessor's output. *)
Definition scan_line (line : list ascii) (output : list (list ascii))
  : M (list (list ascii)) :=
  let n := find line api_call in
  if negb (n =? npos) then
    tail <- lift (substr line n npos) ;;
    let start := find_first_of tail dquote in
    after <- lift (substr line (size_t (n + start + 1)) npos) ;;
    let end_ := find_first_of after dquote in
    tail' <- lift (substr line n npos) ;;
    name <- lift (substr tail' (size_t (start + 1)) end_) ;;
    ret (output ++ [name])
  else ret output.

Fixpoint scan_lines (lines : list (list ascii)) (output : list (list ascii))
  : M (list (list ascii)) :=
  match lines with
  | [] => ret output
  | line :: rest => output' <- scan_line line output ;; scan_lines rest output'
  end.

(** The parent's reading loop on the pipe of the child that executes
    [cmd]. *)
Definition read_pipe (cmd : list string) : M (list ascii) :=
  fun p => Returns (piped host cmd (files p), p).

(** [CppBackend::udfDatasetNames]. *)
Definition udfDatasetNames (udf_file : string) : M (list (list ascii)) :=
  let output := [] in
  if pipe host <? 0 then
    fprintf_stderr "Failed to create pipe" ;;
    ret output
  else
    let pid := fork host in
    let cmd := ["g++"; "-fpreprocessed"; "-dD"; "-E"; udf_file]%string in
    if pid =? 0 then
      do_execvp host cmd ;;
      ret output
    else if 0 <? pid then
      input <- read_pipe cmd ;;
      scan_lines (getlines input) output
    else ret output.

End Scanner.

(** ** The scanner line by line, and as the specification words it *)

(** [t] occurs in [s] at the index [i]. *)
Definition occurs_at (t s : list ascii) (i : nat) : Prop :=
  take (length t) (drop i s) = t.

Definition first_occurrence (t s : list ascii) (i : nat) : Prop :=
  occurs_at t s i /\ forall j, (j < i)%nat -> ~ occurs_at t s j.

Definition quote_free (s : list ascii) : Prop :=
  Forall (fun c => c <> "034"%char) s.

(** The names one line contributes: none when the line has no
    [lib.getData]; otherwise one, read after the first [lib.getData] of the
    line, whatever else the line holds: the string literal that follows it;
    or, when a single double quote follows it, what the line holds after
    that quote; or, when no double quote follows it, the line from
    [lib.getData] on. *)
Inductive line_names (line : list ascii) : list (list ascii) -> Prop :=
| line_without_call :
    (forall i, ~ occurs_at api_call line i) -> line_names line []
| line_with_literal (pre mid name rest : list ascii) :
    line = pre ++ api_call ++ mid ++ dquote ++ name ++ dquote ++ rest ->
    first_occurrence api_call line (length pre) ->
    quote_free mid -> quote_free name ->
    line_names line [name]
| line_with_one_quote (pre mid tail : list ascii) :
    line = pre ++ api_call ++ mid ++ dquote ++ tail ->
    first_occurrence api_call line (length pre) ->
    quote_free mid -> quote_free tail ->
    line_names line [tail]
| line_without_quote (pre rest : list ascii) :
    line = pre ++ api_call ++ rest ->
    first_occurrence api_call line (length pre) ->
    quote_free rest ->
    line_names line [api_call ++ rest].

(** The indices at which [t] occurs in [s], in increasing order. *)
Definition occurrences (t s : list ascii) : list nat :=
  List.filter (fun i => starts_with t (drop i s)) (seq 0 (length s)).

(** [s] cut at its first double quote. *)
Fixpoint until_quote (s : list ascii) : option (list ascii * list ascii) :=
  match s with
  | [] => None
  | c :: r => if Ascii.eqb c "034"%char then Some ([], r)
              else match until_quote r with
                   | Some (a, b) => Some (c :: a, b)
                   | None => None
                   end
  end.

(** The first double-quoted string literal of [s]. *)
Definition literal_after (s : list ascii) : option (list ascii) :=
  match until_quote s with
  | Some (_, r) => match until_quote r with
                   | Some (name, _) => Some name
                   | None => None
                   end
  | None => None
  end.

(** The reading of the scanner by occurrence: for every occurrence of
    [lib.getData] in the text, the first string literal that follows it on
    its line, in the order of the text. *)
Definition names_per_occurrence (input : list ascii) : list (list ascii) :=
  flat_map (fun line => omap (fun i => literal_after (drop i line))
                          (occurrences api_call line))
           (getlines input).

(** ** The sandbox library ([sandbox_library.cpp]) *)

Module SandboxLibrary.

(** System call numbers of [<syscall.h>] on x86-64, and [EPERM] of
    [<errno.h>]. *)
Definition SYS_open : Z := 2.
Definition SYS_stat : Z := 4.
Definition SYS_fstat : Z := 5.
Definition SYS_lstat : Z := 6.
Definition SYS_openat : Z := 257.
Definition EPERM : Z := 1.

(** [GLOB_NOSORT] of [<glob.h>]. *)
Definition GLOB_NOSORT : Z := 4.

(** The initialiser of the global [files_allowed]. *)
Definition files_allowed_init : list string := ["/etc/resolv.conf"%string].

(** The globals of the library: the allowlist, and the hook of the
    interception library ([None] until the constructor has set it). *)
Record library : Type := Library {
  files_allowed : list string;
  intercept_hook_point : option (list string -> (Z -> string) ->
                                 Z -> Z -> Z -> Z -> Z -> Z -> Z -> Z -> Z * Z)
}.

(** The lambda [test_file_ok] of [syscall_intercept] on the path [path];
    the result is the value returned and the value of [*ret]. *)
Fixpoint test_file_ok (allowed : list string) (path : string) (ret : Z) : Z * Z :=
  match allowed with
  | [] => (0, - EPERM)
  | p :: rest => if String.eqb p path then (1, ret) else test_file_ok rest path ret
  end.

(** [syscall_intercept]. [cstring a] is the NUL-terminated string at the
    address [a]; the result is the value returned and the value of
    [*ret]. *)
Definition syscall_intercept (allowed : list string) (cstring : Z -> string)
    (syscall_nr arg0 arg1 arg2 arg3 arg4 arg5 : Z) (ret : Z) : Z * Z :=
  if (syscall_nr =? SYS_stat) || (syscall_nr =? SYS_lstat) || (syscall_nr =? SYS_open)
  then test_file_ok allowed (cstring arg0) ret
  else if syscall_nr =? SYS_openat then test_file_ok allowed (cstring arg1) ret
  else (1, ret).

(** One round of the loop of [syscall_intercept_init]; [glob pattern flags]
    is the value [glob()] returns and the paths it leaves in [gl_pathv]. *)
Definition expand_entry (glob : string -> Z -> Z * list string)
    (allowed : list string) (path : string) : list string :=
  match String.index 0 "*" path with
  | None => allowed ++ [path]
  | Some _ =>
      let '(rc, gl_pathv) := glob path GLOB_NOSORT in
      if negb (rc =? 0) then allowed
      else allowed ++ gl_pathv
  end.

(** [syscall_intercept_init], the constructor of the library. *)
Definition syscall_intercept_init (glob : string -> Z -> Z * list string)
    (lib : library) : library :=
  let files := files_allowed lib in
  Library (fold_left (expand_entry glob) files []) (Some syscall_intercept).

(** The library once the dynamic loader has mapped it and before any of
    its code has run: the globals are zero-initialised, which for the
    vector of libstdc++ is the empty vector, and the hook is unset. *)
Definition mapped : library := Library [] None.

(** The dynamic initialisation of [files_allowed] from its initialiser
    list [init]. *)
Definition files_allowed_initialization (init : list string) (lib : library) : library :=
  Library init (intercept_hook_point lib).

(** The start-up code of the library, for a vector initialised with
    [init]. The constructor and the dynamic initialisation of the vector
    are two entries of the [.init_array] of the one translation unit, and
    g++ places the function that carries the constructor attribute before
    the initialisation of the objects of the file: the constructor runs
    first, on the empty vector, and the initialisation then gives the
    vector its entries. *)
Definition load_library (glob : string -> Z -> Z * list string) (init : list string)
  : library :=
  files_allowed_initialization init (syscall_intercept_init glob mapped).

(** The library as the dynamic loader leaves it. *)
Definition loaded (glob : string -> Z -> Z * list string) : library :=
  load_library glob files_allowed_init.

(** A system call of the process once the library is loaded, as the
    interception library dispatches it (the comment in
    [syscall_intercept]): a non-zero value of the hook lets the original
    system call [kernel] execute, zero makes [*ret] the result; [uninit]
    is the value [*ret] has before the hook runs. The library's globals
    are part of the result. *)
Definition intercepted (lib : library) (cstring : Z -> string)
    (kernel : Z -> Z -> Z -> Z -> Z -> Z -> Z -> Z) (uninit : Z)
    (syscall_nr arg0 arg1 arg2 arg3 arg4 arg5 : Z) : Z * library :=
  match intercept_hook_point lib with
  | None => (kernel syscall_nr arg0 arg1 arg2 arg3 arg4 arg5, lib)
  | Some hook =>
      let '(forward, result) :=
        hook (files_allowed lib) cstring syscall_nr arg0 arg1 arg2 arg3 arg4 arg5 uninit in
      if forward =? 0 then (result, lib)
      else (kernel syscall_nr arg0 arg1 arg2 arg3 arg4 arg5, lib)
  end.

(** The expansion of one entry as the specification words it: an entry
    containing a [*] stands for what [glob] with [GLOB_NOSORT] finds, in
    the order [glob] gives (nothing when [glob] does not return 0); any
    other entry stands for itself. *)
Definition expansion (glob : string -> Z -> Z * list string) (entry : string)
  : list string :=
  if decide ("*"%char ∈ list_ascii_of_string entry)
  then (if fst (glob entry GLOB_NOSORT) =? 0 then snd (glob entry GLOB_NOSORT) else [])
  else [entry].

(** A [glob] that finds two resolver files for every pattern, and a memory
    that holds ["/etc/passwd"] at the address 1 and ["/etc/resolv.conf"]
    elsewhere, to run the library on concrete inputs. *)
Definition example_glob (pattern : string) (flags : Z) : Z * list string :=
  (0, ["/etc/resolv.conf"; "/etc/resolv.conf.d/head"]%string).

Definition example_cstring (address : Z) : string :=
  if address =? 1 then "/etc/passwd"%string else "/etc/resolv.conf"%string.



End SandboxLibrary.

(** ** The system call filter ([syscall_filter_init]) *)

Module SeccompFilter.

(** The actions and the comparison operators of [<seccomp.h>] the library
    uses. *)
Inductive scmp_action : Type :=
| SCMP_ACT_KILL_PROCESS
| SCMP_ACT_ALLOW.

Inductive scmp_compare : Type :=
| SCMP_CMP_EQ
| SCMP_CMP_MASKED_EQ.

(** [struct scmp_arg_cmp]: the index of the argument, the operator and its
    two data. *)
Record scmp_arg_cmp : Type := {
  arg : nat;
  op : scmp_compare;
  datum_a : Z;
  datum_b : Z
}.

(** The macros [SCMP_A1] and [SCMP_A2]; a datum that is not given is 0. *)
Definition SCMP_A1 (op : scmp_compare) (datum_a datum_b : Z) : scmp_arg_cmp :=
  {| arg := 1; op := op; datum_a := datum_a; datum_b := datum_b |}.
Definition SCMP_A2 (op : scmp_compare) (datum_a datum_b : Z) : scmp_arg_cmp :=
  {| arg := 2; op := op; datum_a := datum_a; datum_b := datum_b |}.

(** [O_RDONLY] of [<fcntl.h>] and [FIONREAD] of [<sys/ioctl.h>] on Linux. *)
Definition O_RDONLY : Z := 0.
Definition FIONREAD : Z := 21531.

(** One rule of a filter that allows: the system call, by the name given
    to [SCMP_SYS], and the comparisons on its arguments. *)
Record rule : Type := Rule {
  syscall : string;
  comparisons : list scmp_arg_cmp
}.

(** The uses of the macro [ALLOW] in [syscall_filter_init], in order. *)
Definition allowed : list rule := [
  Rule "brk" [];
  Rule "exit_group" [];
  Rule "socket" [];
  Rule "setsockopt" [];
  Rule "ioctl" [SCMP_A1 SCMP_CMP_EQ FIONREAD 0];
  Rule "connect" [];
  Rule "select" [];
  Rule "poll" [];
  Rule "read" [];
  Rule "recv" [];
  Rule "recvfrom" [];
  Rule "write" [];
  Rule "send" [];
  Rule "sendto" [];
  Rule "sendmsg" [];
  Rule "close" [];
  Rule "stat" [];
  Rule "lstat" [];
  Rule "fstat" [];
  Rule "fstat64" [];
  Rule "open" [SCMP_A1 SCMP_CMP_MASKED_EQ O_RDONLY O_RDONLY];
  Rule "openat" [SCMP_A2 SCMP_CMP_MASKED_EQ O_RDONLY O_RDONLY];
  Rule "mmap" [];
  Rule "mmap2" [];
  Rule "munmap" [];
  Rule "lseek" [];
  Rule "_llseek" [];
  Rule "futex" [];
  Rule "uname" [];
  Rule "mprotect" []
]%string.

(** libseccomp, a parameter: the value [seccomp_rule_add] returns for a
    rule added to a context that holds the rules [ctx], the value
    [seccomp_load] returns for a context, and the text of
    [strerror(errno)] after it. *)
Record Libseccomp : Type := {
  seccomp_rule_add : list rule -> rule -> Z;
  seccomp_load : list rule -> Z;
  strerror_errno : string
}.

(** What a call of [syscall_filter_init] leaves behind: the lines written
    to the standard error stream, the rules of the context [ctx], the
    context [seccomp_load] was called on, if it was, and whether
    [seccomp_release] was called. *)
Record filter_state : Type := FilterState {
  diagnostics : list string;
  context : list rule;
  installed : option (list rule);
  released : bool
}.

(** The uses of [ALLOW] one after the other on the context [ctx]: the
    context at the end, and the name of the system call at which
    [seccomp_rule_add] returned a negative value, if it did. *)
Fixpoint allow_each (lib : Libseccomp) (ctx uses : list rule) : list rule * option string :=
  match uses with
  | [] => (ctx, None)
  | use :: rest =>
      if seccomp_rule_add lib ctx use <? 0 then (ctx, Some (syscall use))
      else allow_each lib (ctx ++ [use]) rest
  end.

(** [syscall_filter_init]; the context is created by
    [seccomp_init(SCMP_ACT_KILL_PROCESS)] with no rule. *)
Definition syscall_filter_init (lib : Libseccomp) : bool * filter_state :=
  match allow_each lib [] allowed with
  | (ctx, Some name) =>
      (false,
       FilterState ["Failed to configure seccomp rule for '" +:+ name +:+ "' syscall"]
                   ctx None false)
  | (ctx, None) =>
      let ret := seccomp_load lib ctx in
      (ret =? 0,
       FilterState (if ret <? 0
                    then ["Failed to load seccomp filter: " +:+ strerror_errno lib]
                    else [])
                   ctx (Some ctx) true)
  end.

(** The meaning [seccomp_rule_add(3)] gives to a comparison on the
    arguments [args] of a system call: [SCMP_CMP_EQ] holds when the
    argument equals [datum_a], [SCMP_CMP_MASKED_EQ] when the argument
    masked by [datum_a] equals [datum_b]. *)
Definition holds (c : scmp_arg_cmp) (args : list Z) : bool :=
  let value := nth (arg c) args 0 in
  match op c with
  | SCMP_CMP_EQ => value =? datum_a c
  | SCMP_CMP_MASKED_EQ => Z.land value (datum_a c) =? datum_b c
  end.

(** The action of a loaded filter whose default is
    [SCMP_ACT_KILL_PROCESS] on a system call: allowed when a rule for the
    system call has all its comparisons hold. *)
Definition filter_action (rules : list rule) (name : string) (args : list Z)
  : scmp_action :=
  if existsb (fun r => String.eqb (syscall r) name
                       && forallb (fun c => holds c args) (comparisons r)) rules
  then SCMP_ACT_ALLOW
  else SCMP_ACT_KILL_PROCESS.

(** A libseccomp that accepts every rule and loads every filter, and one
    that refuses the rule for [mmap2]. *)
Definition accepting : Libseccomp :=
  {| seccomp_rule_add := fun _ _ => 0; seccomp_load := fun _ => 0;
     strerror_errno := "Success" |}.

Definition refusing_mmap2 : Libseccomp :=
  {| seccomp_rule_add := fun _ r => if String.eqb (syscall r) "mmap2" then -22 else 0;
     seccomp_load := fun _ => 0;
     strerror_errno := "Invalid argument" |}.

End SeccompFilter.

(** ** Concrete inputs

    Inputs on which the model is run in the examples below. *)

Definition abc : list byte := [Byte.x61; Byte.x62; Byte.x63].

(** Two calls of the data-access API, one per line. *)
Definition two_calls : list ascii :=
  list_ascii_of_string "auto v = lib.getData<float>(" ++ dquote
  ++ list_ascii_of_string "temp" ++ dquote ++ list_ascii_of_string ");"
  ++ ["010"%char]
  ++ list_ascii_of_string "lib.getData<int>(" ++ dquote
  ++ list_ascii_of_string "rh" ++ dquote ++ list_ascii_of_string ");"
  ++ ["010"%char].

(** Two calls of the data-access API on one line. *)
Definition two_calls_one_line : list ascii :=
  list_ascii_of_string "lib.getData<int>(" ++ dquote
  ++ list_ascii_of_string "a" ++ dquote ++ list_ascii_of_string "); lib.getData<int>("
  ++ dquote ++ list_ascii_of_string "b" ++ dquote ++ list_ascii_of_string ");"
  ++ ["010"%char].

(** A host in which [fork] returns [pid], the shared object opens when
    [opens], every symbol resolves, the compiler writes no file, the
    preprocessor prints [text], and the UDF sets every byte of the region
    to 42. *)
Definition example_host (pid : Z) (opens : bool) (text : list ascii) : Host := {|
  miniz := stored_codec;
  ENABLE_SANDBOX := true;
  assembleUDF := fun _ _ _ _ fs =>
    ("/tmp/udf-assembled.cpp"%string, <["/tmp/udf-assembled.cpp"%string := File [] 420]> fs);
  writeToDisk := fun d _ fs =>
    ("/tmp/udf-shlib.cpp"%string, <["/tmp/udf-shlib.cpp"%string := File d 384]> fs);
  fork := pid;
  pipe := 0;
  execvp := fun _ => true;
  spawned := fun _ fs => fs;
  piped := fun _ _ => text;
  mm_create := fun _ => Some 4096;
  shlib_open := fun _ => opens;
  shlib_loadsym := fun _ => 1;
  shlib_tables := Tables [] [] [] [];
  sandbox_init := fun _ => true;
  udf := fun _ region => (UdfReturns, map (fun _ => Byte.x2a) region);
  udf_keeps_size := fun _ region => length_map (fun _ => Byte.x2a) region
|}.

(** An output dataset of four [int32] elements whose values are at the
    address 100, a blob holding the three bytes [abc], and a process whose
    memory has sixteen bytes of value 255 at the address 100. *)
Definition example_output : DatasetInfo :=
  {| name := "out"; datatype := "int32"; dimensions := [4]; storage_size := 4;
     data := 100 |}.

Definition example_blob : list byte := abc ++ le_split 8 3.

Definition example_process : process :=
  Process ∅ [] {[ 100 := repeat Byte.xff 16 ]}.

(** The host [h] with a compiler that writes the three bytes [abc] to
    [udf.cpp.so]. *)
Definition with_compiler (h : Host) : Host := {|
  miniz := miniz h;
  ENABLE_SANDBOX := ENABLE_SANDBOX h;
  assembleUDF := assembleUDF h;
  writeToDisk := writeToDisk h;
  fork := fork h;
  pipe := pipe h;
  execvp := execvp h;
  spawned := fun _ fs => <["udf.cpp.so"%string := File abc 493]> fs;
  piped := piped h;
  mm_create := mm_create h;
  shlib_open := shlib_open h;
  shlib_loadsym := shlib_loadsym h;
  shlib_tables := shlib_tables h;
  sandbox_init := sandbox_init h;
  udf := udf h;
  udf_keeps_size := udf_keeps_size h
|}.

(** An input dataset of two [float] elements at the address 200. *)
Definition example_input : DatasetInfo :=
  {| name := "temp"; datatype := "float"; dimensions := [2]; storage_size := 4;
     data := 200 |}.

(** The process in which a computation returned, to name it in the
    examples. *)
Definition returned_process {A} (o : outcome (A * process)) : process :=
  match o with
  | Returns (_, p) => p
  | _ => empty_process
  end.

(** * Properties *)

(** ** The monad and the buffers *)

Lemma bind_returns {A B} (m : M A) (k : A -> M B) (p p' : process) (a : A) :
  m p = Returns (a, p') -> bind m k p = k a p'.
Proof. intros H. unfold bind. rewrite H. reflexivity. Qed.

Lemma bind_lift_returns {A B} (o : outcome A) (k : A -> M B) (p : process) (a : A) :
  o = Returns a -> bind (lift o) k p = k a p.
Proof. intros ->. reflexivity. Qed.

Lemma bind_lift_out_of_bounds {A B} (o : outcome A) (k : A -> M B) (p : process) :
  o = OutOfBounds -> bind (lift o) k p = OutOfBounds.
Proof. intros ->. reflexivity. Qed.

Lemma bind_returns_inv {A B} (m : M A) (k : A -> M B) (p p' : process) (b : B) :
  bind m k p = Returns (b, p') ->
  exists a p1, m p = Returns (a, p1) /\ k a p1 = Returns (b, p').
Proof.
  unfold bind. destruct (m p) as [[a p1] | | | | |]; simpl; try discriminate.
  intros H. exists a, p1. split; [reflexivity | exact H].
Qed.

Lemma lift_returns_inv {A} (o : outcome A) (p p' : process) (a : A) :
  lift o p = Returns (a, p') -> o = Returns a /\ p' = p.
Proof.
  unfold lift. destruct o; simpl; try discriminate.
  intros H. injection H as -> ->. split; reflexivity.
Qed.

Lemma store_returns_inv (buf bytes r : list byte) (off : Z) :
  store buf off bytes = Returns r ->
  0 <= off /\ off + Z.of_nat (length bytes) <= Z.of_nat (length buf)
  /\ r = take (Z.to_nat off) buf ++ bytes ++ drop (Z.to_nat off + length bytes) buf.
Proof.
  unfold store.
  destruct ((0 <=? off) && (off + Z.of_nat (length bytes) <=? Z.of_nat (length buf)))
    eqn:E; [| discriminate].
  apply andb_true_iff in E as [H1 H2]. apply Z.leb_le in H1, H2.
  intros H. injection H as <-. repeat split; assumption.
Qed.

Lemma fprintf_stderr_returns (line : string) (p : process) :
  fprintf_stderr line p = Returns (tt, Process (files p) (stderr p ++ [line]) (memory p)).
Proof. reflexivity. Qed.

Lemma resized_nil_length (n : Z) : length (resized [] n) = Z.to_nat n.
Proof. unfold resized. rewrite take_nil, length_app, repeat_length. simpl. lia. Qed.

Lemma resized_prefix (a b : list byte) (n : Z) :
  n = Z.of_nat (length a) -> resized (a ++ b) n = a.
Proof.
  intros ->. unfold resized. rewrite Nat2Z.id, take_app_length, length_app.
  replace (length a - (length a + length b))%nat with 0%nat by lia.
  simpl. apply app_nil_r.
Qed.

Lemma resize_returns (buf : list byte) (n : Z) :
  n <= max_size -> resize buf n = Returns (resized buf n).
Proof.
  intros H. unfold resize.
  replace (max_size <? n) with false by (symmetry; apply Z.ltb_ge; exact H).
  reflexivity.
Qed.

Lemma resize_throws (buf : list byte) (n : Z) :
  max_size < n -> resize buf n = Throws "std::length_error".
Proof.
  intros H. unfold resize.
  replace (max_size <? n) with true by (symmetry; apply Z.ltb_lt; exact H).
  reflexivity.
Qed.

Lemma resize_returns_inv (buf r : list byte) (n : Z) :
  resize buf n = Returns r -> n <= max_size /\ r = resized buf n.
Proof.
  unfold resize. destruct (Z.ltb_spec max_size n) as [H | H]; [discriminate |].
  intros E. injection E as <-. split; [exact H | reflexivity].
Qed.

(** A write that fits after a prefix replaces what follows the prefix. *)
Lemma store_after_prefix (a b bytes : list byte) (off : Z) :
  off = Z.of_nat (length a) -> (length bytes <= length b)%nat ->
  store (a ++ b) off bytes = Returns (a ++ bytes ++ drop (length bytes) b).
Proof.
  intros -> Hfit. unfold store.
  rewrite length_app.
  replace ((0 <=? Z.of_nat (length a))
           && (Z.of_nat (length a) + Z.of_nat (length bytes)
               <=? Z.of_nat (length a + length b))) with true
    by (symmetry; apply andb_true_iff; split; apply Z.leb_le; lia).
  rewrite Nat2Z.id, take_app_length, drop_app_add. reflexivity.
Qed.

Lemma store_at_start (b bytes : list byte) :
  (length bytes <= length b)%nat ->
  store b 0 bytes = Returns (bytes ++ drop (length bytes) b).
Proof. intros H. apply (store_after_prefix [] b bytes 0); [reflexivity | exact H]. Qed.

(** The eight bytes that end a buffer of at least eight bytes are inside
    it. *)
Lemma load_trailer (c t : list byte) :
  length t = 8%nat -> Z.of_nat (length c) < 2 ^ 64 ->
  load (c ++ t) (size_t (Z.of_nat (length (c ++ t)) - 8)) 8 = Returns t.
Proof.
  intros Ht Hc. rewrite length_app, Ht.
  replace (Z.of_nat (length c + 8) - 8) with (Z.of_nat (length c)) by lia.
  unfold size_t. rewrite Z.mod_small by lia.
  unfold load. rewrite length_app, Ht.
  replace ((0 <=? Z.of_nat (length c))
           && (Z.of_nat (length c) + 8 <=? Z.of_nat (length c + 8))) with true
    by (symmetry; apply andb_true_iff; split; apply Z.leb_le; lia).
  rewrite Nat2Z.id, drop_app_length. rewrite take_ge by lia. reflexivity.
Qed.

Lemma le_combine_split_8 (n : Z) : 0 <= n < 2 ^ 64 -> le_combine (le_split 8 n) = n.
Proof. intros H. rewrite le_combine_split. apply Z.mod_small. exact H. Qed.

Section CodecProperties.
Variable mz : Miniz.

(** What [compressBuffer] returns when miniz reports success and leaves
    room for the trailer below the bound: the compressed bytes followed by
    the length of the input in eight little-endian bytes. *)
Lemma compressBuffer_success (x c : list byte) (p : process) :
  mz_compress mz (mz_compressBound mz (Z.of_nat (length x))) x = (Z_OK, c) ->
  Z.of_nat (length c) + 8 <= mz_compressBound mz (Z.of_nat (length x)) <= max_size ->
  compressBuffer mz x p = Returns (c ++ le_split 8 (Z.of_nat (length x)), p).
Proof.
  intros Hc [Hfit Hmax]. unfold compressBuffer. rewrite Hc.
  remember (mz_compressBound mz (Z.of_nat (length x))) as bound eqn:Hbound.
  clear Hbound.
  assert (Hlen : length (resized [] bound) = Z.to_nat bound) by apply resized_nil_length.
  rewrite (bind_lift_returns _ _ _ (resized [] bound)) by (apply resize_returns; exact Hmax).
  rewrite (bind_lift_returns _ _ _ (c ++ drop (length c) (resized [] bound)))
    by (apply store_at_start; lia).
  change (negb (Z_OK =? Z_OK)) with false. cbv iota.
  rewrite (bind_lift_returns _ _ _
             (c ++ le_split 8 (Z.of_nat (length x))
                ++ drop 8 (drop (length c) (resized [] bound)))).
  - rewrite (bind_lift_returns _ _ _ (c ++ le_split 8 (Z.of_nat (length x))));
      [reflexivity |].
    rewrite resize_returns by lia.
    rewrite app_assoc, resized_prefix; [reflexivity |].
    rewrite length_app, length_le_split. lia.
  - apply (store_after_prefix c (drop (length c) (resized [] bound))
             (le_split 8 (Z.of_nat (length x)))); [reflexivity |].
    rewrite length_le_split, length_drop. lia.
Qed.


(** What [decompressBuffer] returns on a blob whose trailer is the length
    of what miniz recovers from the bytes before it. *)
Lemma decompressBuffer_success (x c : list byte) (p : process) :
  Z.of_nat (length x) <= max_size ->
  Z.of_nat (length c) < 2 ^ 64 ->
  mz_uncompress mz (Z.of_nat (length x)) c = (Z_OK, x) ->
  decompressBuffer mz (c ++ le_split 8 (Z.of_nat (length x))) p = Returns (x, p).
Proof.
  intros Hx Hc Hun. unfold decompressBuffer.
  rewrite (bind_lift_returns _ _ _ (le_split 8 (Z.of_nat (length x))))
    by (apply load_trailer; [apply length_le_split | exact Hc]).
  assert (Hmax : max_size < 2 ^ 64) by reflexivity.
  rewrite le_combine_split_8 by lia.
  rewrite length_app, length_le_split.
  replace (size_t (Z.of_nat (length c + 8) - 8)) with (Z.of_nat (length c))
    by (unfold size_t; rewrite Z.mod_small; lia).
  rewrite (bind_lift_returns _ _ _ _ (resize_returns _ _ Hx)).
  rewrite Nat2Z.id, take_app_length, Hun.
  rewrite (bind_lift_returns _ _ _ x).
  - reflexivity.
  - rewrite store_at_start by (rewrite resized_nil_length; lia).
    rewrite drop_ge by (rewrite resized_nil_length; lia).
    rewrite app_nil_r. reflexivity.
Qed.

(** The trailer read of a blob shorter than eight bytes is outside the
    blob. *)
Lemma load_trailer_short (data : list byte) :
  Z.of_nat (length data) < 8 ->
  load data (size_t (Z.of_nat (length data) - 8)) 8 = OutOfBounds.
Proof.
  intros H. unfold load, size_t.
  replace ((Z.of_nat (length data) - 8) mod 2 ^ 64)
    with (Z.of_nat (length data) - 8 + 2 ^ 64).
  - replace (Z.of_nat (length data) - 8 + 2 ^ 64 + 8 <=? Z.of_nat (length data))
      with false by (symmetry; apply Z.leb_gt; lia).
    rewrite andb_false_r. reflexivity.
  - apply Z.mod_unique with (q := -1); lia.
Qed.
(** C1. For every byte string [x] of a length a [std::string] can have
    and that miniz round-trips, [compressBuffer] returns the compressed bytes followed by
    an 8-byte little-endian trailer equal to the length of [x], and
    [decompressBuffer] of that blob reads the trailer, allocates that many
    bytes and returns [x]: decompress(compress(x)) = x. The equation needs
    no hypothesis that [x] is non-empty; that restriction of the claim
    matters to the callers, for which an empty result means failure. *)
Theorem decompress_compress_round_trip (x c : list byte) (p : process) :
  Z.of_nat (length x) <= max_size ->
  codec_round_trip mz x c ->
  compressBuffer mz x p = Returns (c ++ le_split 8 (Z.of_nat (length x)), p)
  /\ le_combine (drop (length c) (c ++ le_split 8 (Z.of_nat (length x))))
     = Z.of_nat (length x)
  /\ (blob <- compressBuffer mz x ;; decompressBuffer mz blob) p = Returns (x, p).
Proof.
  intros Hx (Hc & Hfit & Hun).
  assert (Hmax : max_size < 2 ^ 64) by reflexivity.
  assert (Hblob := compressBuffer_success x c p Hc Hfit).
  split; [exact Hblob | split].
  - rewrite drop_app_length. apply le_combine_split_8. lia.
  - rewrite (bind_returns _ _ _ _ _ Hblob).
    apply decompressBuffer_success; [exact Hx | lia | exact Hun].
Qed.

(** C10. [decompressBuffer] reads its trailer at offset [csize - 8] with no
    check of [csize]: on every blob shorter than eight bytes the read is
    outside the blob, whatever the codec; from eight bytes on, the read is
    inside the blob and delivers its last eight bytes. *)
Theorem decompressBuffer_trailer_bounds (data : list byte) (p : process) :
  (Z.of_nat (length data) < 8 ->
   load data (size_t (Z.of_nat (length data) - 8)) 8 = OutOfBounds
   /\ decompressBuffer mz data p = OutOfBounds)
  /\ (8 <= Z.of_nat (length data) < 2 ^ 64 ->
      load data (size_t (Z.of_nat (length data) - 8)) 8
      = Returns (drop (length data - 8) data)).
Proof.
  split.
  - intros H. split; [apply load_trailer_short; exact H |].
    unfold decompressBuffer.
    apply bind_lift_out_of_bounds, load_trailer_short, H.
  - intros H.
    rewrite <- (take_drop (length data - 8) data) at 1 2.
    rewrite load_trailer; [reflexivity | |].
    + rewrite length_drop. lia.
    + rewrite length_take. lia.
Qed.

End CodecProperties.

Lemma decompress_compress_round_trip_witness :
  (blob <- compressBuffer stored_codec abc ;; decompressBuffer stored_codec blob)
    empty_process
  = Returns (abc, empty_process).
Proof.
  apply (decompress_compress_round_trip stored_codec abc abc empty_process).
  - vm_compute. discriminate.
  - repeat split; vm_compute; congruence.
Defined.

Lemma decompressBuffer_trailer_bounds_witness :
  decompressBuffer stored_codec abc empty_process = OutOfBounds.
Proof.
  apply (decompressBuffer_trailer_bounds stored_codec abc empty_process).
  vm_compute. reflexivity.
Defined.

(** ** The compile driver *)

Lemma string_length_zero (s : string) : (String.length s =? 0)%nat = true <-> s = ""%string.
Proof. destruct s; simpl; split; congruence. Qed.

Lemma string_length_nonzero (s : string) :
  s <> ""%string -> (String.length s =? 0)%nat = false.
Proof.
  intros H. destruct (String.length s =? 0)%nat eqn:E; [| reflexivity].
  apply string_length_zero in E. contradiction.
Qed.

Lemma pid_parent (pid : Z) : 0 < pid -> (pid =? 0) = false /\ (0 <? pid) = true.
Proof. intros H. split; [apply Z.eqb_neq | apply Z.ltb_lt]; lia. Qed.

Lemma pid_failure (pid : Z) : pid < 0 -> (pid =? 0) = false /\ (0 <? pid) = false.
Proof. intros H. split; [apply Z.eqb_neq | apply Z.ltb_ge]; lia. Qed.

Section BackendProperties.
Variable host : Host.

Lemma on_files_returns {A} (f : gmap string file -> A * gmap string file)
    (p : process) (a : A) (fs : gmap string file) :
  f (files p) = (a, fs) -> on_files f p = Returns (a, Process fs (stderr p) (memory p)).
Proof. intros H. unfold on_files. rewrite H. reflexivity. Qed.

(** C2 on the code. When assembly succeeds, the compiler child is waited
    for and no file exists at [<udf_file>.so], [compile] unlinks the
    assembled source and returns [compressBuffer] of the empty byte string:
    whenever miniz reports success on the empty input, within a bound a
    [std::string] can take, that is the compressed bytes followed by eight
    zero bytes, not the empty blob. *)
Theorem compile_missing_output (udf_file template_file cpp_file : string)
    (fs : gmap string file) (c : list byte) (p : process) :
  let output := (udf_file +:+ ".so")%string in
  let cmd := ["g++"; "-rdynamic"; "-shared"; "-fPIC"; "-flto"; "-Os"; "-C"; "-o";
              output; cpp_file]%string in
  assembleUDF host udf_file template_file "// user_callback_placeholder" extension (files p)
  = (cpp_file, fs) ->
  cpp_file <> ""%string ->
  0 < fork host ->
  spawned host cmd fs !! output = None ->
  mz_compress (miniz host) (mz_compressBound (miniz host) 0) [] = (Z_OK, c) ->
  Z.of_nat (length c) + 8 <= mz_compressBound (miniz host) 0 <= max_size ->
  exists p',
    compile host udf_file template_file p = Returns (c ++ le_split 8 0, p')
    /\ files p' !! cpp_file = None
    /\ stderr p' = stderr p
    /\ c ++ le_split 8 0 <> [].
Proof.
  intros output cmd Hasm Hne Hpid Hmissing Hc Hfit.
  destruct (pid_parent _ Hpid) as [Hz Hpos].
  eexists. split; [| split; [| split]].
  - unfold compile.
    rewrite (bind_returns _ _ _ _ _ (on_files_returns _ _ _ _ Hasm)).
    rewrite (string_length_nonzero _ Hne).
    fold output. fold cmd. rewrite Hz, Hpos.
    unfold bind at 1. unfold wait_spawned, outcome_bind, fst, snd.
    unfold bind at 1. unfold stat_ok, outcome_bind, fst, snd, files.
    rewrite Hmissing.
    rewrite bool_decide_eq_false_2 by (intros [? ?]; discriminate).
    unfold bind at 1. unfold bind at 1. unfold ret at 1. unfold outcome_bind, fst, snd.
    unfold unlink at 1.
    apply (compressBuffer_success (miniz host) [] c _ Hc Hfit).
  - simpl. apply lookup_delete_eq.
  - reflexivity.
  - intros H. apply (f_equal (@length byte)) in H.
    rewrite length_app, length_le_split in H. simpl in H. lia.
Qed.

(** ** The executor *)

(** [decompressBuffer] touches neither the file system nor the memory. *)
Lemma decompressBuffer_frame (mz : Miniz) (data d : list byte) (p p1 : process) :
  decompressBuffer mz data p = Returns (d, p1) ->
  files p1 = files p /\ memory p1 = memory p.
Proof.
  unfold decompressBuffer, bind, lift.
  destruct (load data _ 8) as [trailer | | | | |]; simpl; try discriminate.
  destruct (resize [] _) as [buf0 | | | | |]; simpl; try discriminate.
  destruct (mz_uncompress mz _ _) as [status out].
  destruct (store _ 0 out) as [buf | | | | |]; simpl; try discriminate.
  destruct (negb (status =? Z_OK)); simpl; intros H; injection H as _ <-; split; reflexivity.
Qed.

(** Whatever the child does, the shared region keeps its size. *)
Lemma run_child_region_size (filterpath : string) (inputs : list DatasetInfo)
    (output : DatasetInfo) (so_file : string) (mm : Z) (region : list byte) :
  length (snd (run_child host filterpath inputs output so_file mm region)) = length region.
Proof.
  unfold run_child.
  destruct (negb (shlib_open host so_file)); [reflexivity |].
  destruct (_ || _); [reflexivity |].
  destruct (if ENABLE_SANDBOX host then _ else _); [| reflexivity].
  match goal with |- context [udf host ?t ?r] =>
    pose proof (udf_keeps_size host t r) as Hsize; destruct (udf host t r) as [[| s] r']
  end; exact Hsize.
Qed.

(** The state of [run] when it is about to fork: the blob decompressed to
    the non-empty [d], [d] written to [so_file], and a region of [room]
    bytes mapped, with [p2] the process after [chmod]. *)
Lemma run_until_fork (filterpath : string) (inputs : list DatasetInfo)
    (output : DatasetInfo) (cast : string) (blob d : list byte) (p p1 : process)
    (so_file : string) (fs : gmap string file) (mm : Z) :
  let room := getGridSize output * getStorageSize output in
  let region := fresh_region room in
  let p2 := Process (alter (fun f => File (contents f) 493) so_file fs)
                    (stderr p1) (memory p1) in
  decompressBuffer (miniz host) blob p = Returns (d, p1) ->
  d <> [] ->
  writeToDisk host d extension (files p1) = (so_file, fs) ->
  so_file <> ""%string ->
  0 <= room < 2 ^ 64 ->
  mm_create host room = Some mm ->
  run host filterpath inputs output cast blob p
  = (if fork host =? 0 then
       lift (fst (run_child host filterpath inputs output so_file mm region))
     else
       (if 0 <? fork host then
          memcpy_out (data output)
            (snd (run_child host filterpath inputs output so_file mm region)) room
        else ret tt) ;;
       unlink so_file ;;
       ret true) p2.
Proof.
  intros room region p2 Hdec Hd Hwrite Hso Hroom Hmap.
  unfold run. rewrite (bind_returns _ _ _ _ _ Hdec).
  destruct d as [| b d']; [contradiction |]. cbn [length Nat.eqb].
  rewrite (bind_returns _ _ _ _ _ (on_files_returns _ _ _ _ Hwrite)).
  rewrite (string_length_nonzero _ Hso).
  unfold bind at 1. unfold chmod at 1. unfold outcome_bind, fst, snd.
  fold room. unfold size_t. rewrite (Z.mod_small room) by exact Hroom.
  rewrite Hmap. reflexivity.
Qed.

(** C3. When decompression, materialization on disk, creation of the
    shared region and [fork] succeed, [run] returns [true] in the parent
    whatever the child does and however it ends (no hypothesis bears on the
    child), and the caller's output buffer then holds the [room] bytes of
    the shared region, [room = grid_size * storage_size], followed by
    whatever it held beyond them. *)
Theorem run_parent_copies_region (filterpath : string) (inputs : list DatasetInfo)
    (output : DatasetInfo) (cast : string) (blob d : list byte) (p p1 : process)
    (so_file : string) (fs : gmap string file) (mm : Z) (buf : list byte) :
  let room := getGridSize output * getStorageSize output in
  let region :=
    snd (run_child host filterpath inputs output so_file mm (fresh_region room)) in
  decompressBuffer (miniz host) blob p = Returns (d, p1) ->
  d <> [] ->
  writeToDisk host d extension (files p1) = (so_file, fs) ->
  so_file <> ""%string ->
  0 <= room < 2 ^ 64 ->
  mm_create host room = Some mm ->
  0 < fork host ->
  memory p !! data output = Some buf ->
  room <= Z.of_nat (length buf) ->
  exists p',
    run host filterpath inputs output cast blob p = Returns (true, p')
    /\ Z.of_nat (length region) = room
    /\ memory p' = <[data output := region ++ drop (Z.to_nat room) buf]> (memory p).
Proof.
  intros room region Hdec Hd Hwrite Hso Hroom Hmap Hpid Hbuf Hfits.
  destruct (pid_parent _ Hpid) as [Hz Hpos].
  destruct (decompressBuffer_frame _ _ _ _ _ Hdec) as [_ Hmem].
  assert (Hlen : length region = Z.to_nat room).
  { unfold region. rewrite run_child_region_size. apply resized_nil_length. }
  rewrite (run_until_fork filterpath inputs output cast blob d p p1 so_file fs mm
             Hdec Hd Hwrite Hso Hroom Hmap).
  rewrite Hz, Hpos. fold room. fold region.
  assert (Hload : load region 0 room = Returns region).
  { unfold load.
    replace ((0 <=? 0) && (0 + room <=? Z.of_nat (length region))) with true
      by (symmetry; apply andb_true_iff; split; apply Z.leb_le; lia).
    rewrite drop_0, take_ge by lia. reflexivity. }
  assert (Hstore : store buf 0 region
                   = Returns (region ++ drop (Z.to_nat room) buf)).
  { rewrite store_at_start by lia. rewrite Hlen. reflexivity. }
  eexists. split; [| split].
  - unfold bind at 1. unfold memcpy_out. cbn [memory]. rewrite Hmem, Hbuf, Hload.
    cbn [outcome_bind]. rewrite Hstore. reflexivity.
  - lia.
  - reflexivity.
Qed.

(** X1. The three failures of the parent that [run] reports, an empty
    result of [decompressBuffer], an empty path from [writeToDisk] and a
    mapping that is not created: [run] returns [false] and leaves the
    caller's memory as it was. *)
Lemma run_reported_failures (filterpath : string) (inputs : list DatasetInfo)
    (output : DatasetInfo) (cast : string) (blob d : list byte) (p p1 : process)
    (so_file : string) (fs : gmap string file) :
  let room := getGridSize output * getStorageSize output in
  decompressBuffer (miniz host) blob p = Returns (d, p1) ->
  writeToDisk host d extension (files p1) = (so_file, fs) ->
  d = [] \/ so_file = ""%string \/ mm_create host (size_t room) = None ->
  exists p',
    run host filterpath inputs output cast blob p = Returns (false, p')
    /\ memory p' = memory p.
Proof.
  intros room Hdec Hwrite Hfail.
  destruct (decompressBuffer_frame _ _ _ _ _ Hdec) as [_ Hmem].
  unfold run. rewrite (bind_returns _ _ _ _ _ Hdec).
  destruct d as [| b d'].
  { eexists. split; [reflexivity | exact Hmem]. }
  cbn [length Nat.eqb].
  rewrite (bind_returns _ _ _ _ _ (on_files_returns _ _ _ _ Hwrite)).
  destruct (String.length so_file =? 0)%nat eqn:Hso.
  { eexists. split; [reflexivity | exact Hmem]. }
  destruct Hfail as [Hd | [Hs | Hmap]].
  - discriminate.
  - subst so_file. discriminate.
  - fold room. unfold bind at 1. unfold chmod at 1. unfold outcome_bind, fst, snd.
    rewrite Hmap. eexists. split; [reflexivity | exact Hmem].
Qed.

(** C4 on the code. When [fork] fails (it returns a negative value) after
    decompression, materialization and mapping have succeeded, [run]
    leaves the caller's memory as it was, unlinks the shared object, and
    returns [true], not [false]. *)
Theorem run_fork_failure (filterpath : string) (inputs : list DatasetInfo)
    (output : DatasetInfo) (cast : string) (blob d : list byte) (p p1 : process)
    (so_file : string) (fs : gmap string file) (mm : Z) :
  let room := getGridSize output * getStorageSize output in
  decompressBuffer (miniz host) blob p = Returns (d, p1) ->
  d <> [] ->
  writeToDisk host d extension (files p1) = (so_file, fs) ->
  so_file <> ""%string ->
  0 <= room < 2 ^ 64 ->
  mm_create host room = Some mm ->
  fork host < 0 ->
  exists p',
    run host filterpath inputs output cast blob p = Returns (true, p')
    /\ memory p' = memory p
    /\ files p' !! so_file = None.
Proof.
  intros room Hdec Hd Hwrite Hso Hroom Hmap Hpid.
  destruct (pid_failure _ Hpid) as [Hz Hneg].
  destruct (decompressBuffer_frame _ _ _ _ _ Hdec) as [_ Hmem].
  rewrite (run_until_fork filterpath inputs output cast blob d p p1 so_file fs mm
             Hdec Hd Hwrite Hso Hroom Hmap).
  rewrite Hz, Hneg.
  eexists. split; [reflexivity | split].
  - exact Hmem.
  - simpl. apply lookup_delete_eq.
Qed.

(** C5 on the code. How the block of the child ends: when the shared
    object does not open, or a symbol is missing, the block returns [false]
    to the caller of [run] inside the child and no exit takes place; when
    the sandbox does not initialise the child ends by [_exit(1)]; when the
    UDF returns it ends by [_exit(0)]; and a UDF that is killed ends the
    child by its signal. *)
Theorem run_child_endings (filterpath : string) (inputs : list DatasetInfo)
    (output : DatasetInfo) (so_file : string) (mm : Z) (region : list byte) :
  let ending := fst (run_child host filterpath inputs output so_file mm region) in
  let resolved := forallb (fun symbol => negb (shlib_loadsym host symbol =? 0))
                    ["dynamic_dataset"; "hdf5_udf_data"; "hdf5_udf_names";
                     "hdf5_udf_types"; "hdf5_udf_dims"]%string in
  let ready := if ENABLE_SANDBOX host then sandbox_init host filterpath else true in
  let filled :=
    fold_left push_dataset
      ({| name := name output; datatype := datatype output;
          dimensions := dimensions output; storage_size := storage_size output;
          data := mm |} :: inputs) (shlib_tables host) in
  (shlib_open host so_file = false -> ending = Returns false)
  /\ (shlib_open host so_file = true -> resolved = false -> ending = Returns false)
  /\ (shlib_open host so_file = true -> resolved = true -> ready = false ->
      ending = Exits 1)
  /\ (shlib_open host so_file = true -> resolved = true -> ready = true ->
      ending = match fst (udf host filled region) with
               | UdfReturns => Exits 0
               | UdfKilled s => Killed s
               end).
Proof.
  intros ending resolved ready filled. subst ending. unfold run_child.
  fold ready. change ([_] ++ inputs) with
    ({| name := name output; datatype := datatype output;
        dimensions := dimensions output; storage_size := storage_size output;
        data := mm |} :: inputs). fold filled.
  assert (Hres : (shlib_loadsym host "dynamic_dataset" =? 0)
                 || (shlib_loadsym host "hdf5_udf_data" =? 0)
                 || (shlib_loadsym host "hdf5_udf_names" =? 0)
                 || (shlib_loadsym host "hdf5_udf_types" =? 0)
                 || (shlib_loadsym host "hdf5_udf_dims" =? 0) = negb resolved).
  { subst resolved. cbn [forallb].
    destruct (_ =? 0), (_ =? 0), (_ =? 0), (_ =? 0), (_ =? 0); reflexivity. }
  rewrite Hres.
  repeat split; intros Hopen; rewrite Hopen; cbn [negb]; try reflexivity.
  - intros ->. reflexivity.
  - intros -> ->. reflexivity.
  - intros -> ->. cbn [negb]. destruct (udf host filled region) as [[| s] r]; reflexivity.
Qed.

(** C9. [run] does not depend on [output_cast_datatype]: with every other
    argument and the process fixed, its result and its effects are the same
    for any two values of the parameter. *)
Theorem run_ignores_output_cast_datatype (filterpath : string)
    (inputs : list DatasetInfo) (output : DatasetInfo) (cast cast' : string)
    (blob : list byte) (p : process) :
  run host filterpath inputs output cast blob p
  = run host filterpath inputs output cast' blob p.
Proof. reflexivity. Qed.

End BackendProperties.

(** ** The backend on the concrete inputs *)

(** The compiler writes nothing: [compile] answers with eight zero bytes. *)
Lemma compile_missing_output_witness :
  exists p',
    compile (example_host 7 true two_calls) "udf.cpp" "template.cpp" empty_process
    = Returns ([] ++ le_split 8 0, p')
    /\ files p' !! "/tmp/udf-assembled.cpp"%string = None
    /\ stderr p' = stderr empty_process
    /\ [] ++ le_split 8 0 <> [].
Proof.
  apply (compile_missing_output (example_host 7 true two_calls) "udf.cpp" "template.cpp"
           "/tmp/udf-assembled.cpp"
           (<["/tmp/udf-assembled.cpp"%string := File [] 420]> ∅) [] empty_process).
  - reflexivity.
  - discriminate.
  - reflexivity.
  - vm_compute. reflexivity.
  - reflexivity.
  - split; vm_compute; discriminate.
Defined.

Lemma run_parent_copies_region_witness :
  exists p',
    run (example_host 7 true two_calls) "file.h5" [] example_output "int32" example_blob
        example_process
    = Returns (true, p')
    /\ Z.of_nat (length (repeat Byte.x2a 16)) = 16
    /\ memory p' = <[100 := repeat Byte.x2a 16 ++ drop 16 (repeat Byte.xff 16)]>
                     (memory example_process).
Proof.
  apply (run_parent_copies_region (example_host 7 true two_calls) "file.h5" []
           example_output "int32" example_blob abc example_process example_process
           "/tmp/udf-shlib.cpp" (<["/tmp/udf-shlib.cpp"%string := File abc 384]> ∅)
           4096 (repeat Byte.xff 16)).
  - vm_compute. reflexivity.
  - discriminate.
  - reflexivity.
  - discriminate.
  - vm_compute. split; congruence.
  - reflexivity.
  - reflexivity.
  - vm_compute. reflexivity.
  - vm_compute. discriminate.
Defined.

Lemma run_fork_failure_witness :
  exists p',
    run (example_host (-1) true two_calls) "file.h5" [] example_output "int32"
        example_blob example_process
    = Returns (true, p')
    /\ memory p' = memory example_process
    /\ files p' !! "/tmp/udf-shlib.cpp"%string = None.
Proof.
  apply (run_fork_failure (example_host (-1) true two_calls) "file.h5" []
           example_output "int32" example_blob abc example_process example_process
           "/tmp/udf-shlib.cpp" (<["/tmp/udf-shlib.cpp"%string := File abc 384]> ∅) 4096).
  - vm_compute. reflexivity.
  - discriminate.
  - reflexivity.
  - discriminate.
  - vm_compute. split; congruence.
  - reflexivity.
  - reflexivity.
Defined.

Lemma run_child_endings_witness :
  fst (run_child (example_host 0 false two_calls) "file.h5" [] example_output
         "/tmp/udf-shlib.cpp" 4096 (repeat Byte.x00 16))
  = Returns false.
Proof.
  apply (proj1 (run_child_endings (example_host 0 false two_calls) "file.h5" []
                  example_output "/tmp/udf-shlib.cpp" 4096 (repeat Byte.x00 16))).
  reflexivity.
Defined.

(** ** The dataset-reference scanner *)

Lemma starts_with_occurs (t s : list ascii) :
  starts_with t s = true <-> occurs_at t s 0.
Proof.
  unfold occurs_at. rewrite drop_0. revert s.
  induction t as [| a t IH]; intros s; simpl.
  - rewrite take_0. split; reflexivity.
  - destruct s as [| b s]; simpl.
    + split; discriminate.
    + rewrite andb_true_iff, Ascii.eqb_eq, IH. split.
      * intros [-> ->]. reflexivity.
      * intros H. injection H as -> H. rewrite H. split; reflexivity.
Qed.

Lemma find_from_unfold (s t : list ascii) (pos : Z) :
  find_from s t pos
  = if starts_with t s then pos
    else match s with
         | [] => npos
         | _ :: s' => find_from s' t (pos + 1)
         end.
Proof. destruct s; reflexivity. Qed.

(** [find] is the index of the first occurrence. *)
Lemma find_from_first (t s : list ascii) (i : nat) (pos : Z) :
  first_occurrence t s i -> find_from s t pos = pos + Z.of_nat i.
Proof.
  revert s pos. induction i as [| i IH]; intros s pos [Hocc Hfirst].
  - rewrite find_from_unfold.
    rewrite (proj2 (starts_with_occurs t s) Hocc). lia.
  - rewrite find_from_unfold.
    assert (H0 : ~ occurs_at t s 0) by (apply Hfirst; lia).
    destruct (starts_with t s) eqn:E.
    { apply starts_with_occurs in E. contradiction. }
    destruct s as [| c s].
    + exfalso. apply H0. unfold occurs_at in *. exact Hocc.
    + rewrite IH; [lia |]. split.
      * exact Hocc.
      * intros j Hj. apply (Hfirst (S j)). lia.
Qed.

(** [find] is [npos] when there is no occurrence. *)
Lemma find_from_none (t s : list ascii) (pos : Z) :
  (forall i, ~ occurs_at t s i) -> find_from s t pos = npos.
Proof.
  revert pos. induction s as [| c s IH]; intros pos Hnone; rewrite find_from_unfold.
  - destruct (starts_with t []) eqn:E; [| reflexivity].
    apply starts_with_occurs in E. destruct (Hnone _ E).
  - destruct (starts_with t (c :: s)) eqn:E.
    + apply starts_with_occurs in E. destruct (Hnone _ E).
    + apply IH. intros i Hi. apply (Hnone (S i)). exact Hi.
Qed.

(** [find_first_of] of the double quote skips a text without one. *)
Lemma find_first_of_from_quote (a r : list ascii) (pos : Z) :
  quote_free a ->
  find_first_of_from (a ++ dquote ++ r) dquote pos = pos + Z.of_nat (length a).
Proof.
  intros Ha. revert pos. induction Ha as [| c a Hc Ha IH]; intros pos.
  - simpl. lia.
  - simpl. apply Ascii.eqb_neq in Hc. rewrite Hc. simpl.
    change (find_first_of_from (a ++ "034"%char :: r) dquote (pos + 1))
      with (find_first_of_from (a ++ dquote ++ r) dquote (pos + 1)).
    rewrite IH. lia.
Qed.

Lemma quote_free_api_call : quote_free api_call.
Proof. unfold quote_free, api_call. simpl. repeat constructor; discriminate. Qed.

Lemma substr_to_end (s : list ascii) (pos : nat) :
  (pos <= length s)%nat -> size s < npos ->
  substr s (Z.of_nat pos) npos = Returns (drop pos s).
Proof.
  intros Hpos Hsize. unfold substr, size in *.
  replace (Z.of_nat (length s) <? Z.of_nat pos) with false
    by (symmetry; apply Z.ltb_ge; lia).
  rewrite Nat2Z.id, take_ge; [reflexivity |].
  rewrite length_drop. lia.
Qed.

Lemma find_first_of_from_quote_free (s : list ascii) (pos : Z) :
  quote_free s -> find_first_of_from s dquote pos = npos.
Proof.
  intros Hs. revert pos. induction Hs as [| c s Hc Hs IH]; intros pos; simpl.
  - reflexivity.
  - apply Ascii.eqb_neq in Hc. rewrite Hc. simpl. apply IH.
Qed.

Lemma size_t_wraps (n : Z) : 0 <= n < npos -> size_t (n + npos + 1) = n.
Proof.
  intros H. unfold size_t, npos in *.
  replace (n + (2 ^ 64 - 1) + 1) with (n + 1 * 2 ^ 64) by lia.
  rewrite Z.mod_add by lia. apply Z.mod_small. lia.
Qed.

(** The round of the loop on a line that has [lib.getData] and no complete
    string literal after it: with no double quote after the call the name
    is the line from [lib.getData] on, with one double quote only it is
    what follows that quote. *)
Lemma scan_line_incomplete_literal (pre rest : list ascii) (output : list (list ascii))
    (p : process) :
  let line := pre ++ api_call ++ rest in
  size line < npos ->
  first_occurrence api_call line (length pre) ->
  (quote_free rest ->
   scan_line line output p = Returns (output ++ [api_call ++ rest], p))
  /\ (forall mid tail, rest = mid ++ dquote ++ tail -> quote_free mid -> quote_free tail ->
      scan_line line output p = Returns (output ++ [tail], p)).
Proof.
  intros line Hsize Hfirst.
  assert (Hlen : length line = (length pre + (length api_call + length rest))%nat).
  { unfold line. rewrite !length_app. reflexivity. }
  assert (Hbound : Z.of_nat (length line) < 2 ^ 64 - 1) by exact Hsize.
  assert (Htail : substr line (Z.of_nat (length pre)) npos = Returns (api_call ++ rest)).
  { rewrite substr_to_end by (assumption || lia).
    unfold line. rewrite drop_app_length. reflexivity. }
  assert (Hhead :
             scan_line line output p
             = (tail <- lift (substr line (Z.of_nat (length pre)) npos) ;;
                let start := find_first_of tail dquote in
                after <- lift (substr line (size_t (Z.of_nat (length pre) + start + 1))
                                 npos) ;;
                let end_ := find_first_of after dquote in
                tail' <- lift (substr line (Z.of_nat (length pre)) npos) ;;
                name <- lift (substr tail' (size_t (start + 1)) end_) ;;
                ret (output ++ [name])) p).
  { unfold scan_line, find.
    rewrite (find_from_first _ _ _ _ Hfirst), Z.add_0_l.
    replace (Z.of_nat (length pre) =? npos) with false
      by (symmetry; apply Z.eqb_neq; unfold npos; lia).
    reflexivity. }
  rewrite Hhead. clear Hhead.
  rewrite (bind_lift_returns _ _ _ _ Htail).
  split.
  - intros Hrest.
    assert (Hstart : find_first_of (api_call ++ rest) dquote = npos).
    { apply find_first_of_from_quote_free, Forall_app.
      split; [apply quote_free_api_call | exact Hrest]. }
    cbv zeta. rewrite Hstart. rewrite size_t_wraps. 2:{ unfold npos. lia. }
    rewrite (bind_lift_returns _ _ _ _ Htail). rewrite Hstart.
    rewrite (bind_lift_returns _ _ _ _ Htail).
    replace (size_t (npos + 1)) with 0 by reflexivity.
    rewrite (bind_lift_returns _ _ _ (api_call ++ rest)); [reflexivity |].
    unfold substr, size.
    replace (Z.of_nat (length (api_call ++ rest)) <? 0) with false
      by (symmetry; apply Z.ltb_ge; lia).
    rewrite drop_0, take_ge; [reflexivity |]. unfold npos. rewrite length_app. lia.
  - intros mid tail -> Hmid Htl.
    assert (Hstart : find_first_of (api_call ++ mid ++ dquote ++ tail) dquote
                     = Z.of_nat (length api_call + length mid)).
    { rewrite app_assoc. unfold find_first_of.
      rewrite find_first_of_from_quote
        by (apply Forall_app; split; [apply quote_free_api_call | exact Hmid]).
      rewrite length_app. lia. }
    rewrite !length_app in Hlen. simpl length in Hlen.
    cbv zeta. rewrite Hstart.
    set (start := (length api_call + length mid)%nat) in *.
    replace (size_t (Z.of_nat (length pre) + Z.of_nat start + 1))
      with (Z.of_nat (length pre + start + 1))
      by (unfold size_t; rewrite Z.mod_small; subst start; simpl in *; lia).
    assert (Hafter : drop (length pre + start + 1) line = tail).
    { unfold line. rewrite <- drop_drop, <- drop_drop, drop_app_length.
      rewrite app_assoc. subst start. rewrite <- length_app, drop_app_length.
      reflexivity. }
    rewrite (bind_lift_returns _ _ _ tail)
      by (rewrite <- Hafter; apply substr_to_end;
          [subst start; simpl in *; lia | exact Hsize]).
    unfold find_first_of at 1. rewrite find_first_of_from_quote_free by exact Htl.
    rewrite (bind_lift_returns _ _ _ _ Htail).
    rewrite (bind_lift_returns _ _ _ tail); [reflexivity |].
    replace (size_t (Z.of_nat start + 1)) with (Z.of_nat (start + 1))
      by (unfold size_t; rewrite Z.mod_small; subst start; simpl in *; lia).
    rewrite substr_to_end.
    + rewrite app_assoc. subst start. rewrite <- length_app.
      rewrite <- drop_drop, drop_app_length. reflexivity.
    + rewrite !length_app. subst start. simpl. lia.
    + unfold size, npos. rewrite !length_app. simpl in *. lia.
Qed.

Section ScannerProperties.
Variable host : Host.

(** One round of the loop on a line: the names the line contributes are
    appended to the output. *)
Lemma scan_line_names (line : list ascii) (names output : list (list ascii))
    (p : process) :
  size line < npos ->
  line_names line names ->
  scan_line line output p = Returns (output ++ names, p).
Proof.
  intros Hsize Hnames.
  destruct Hnames as [Hnone | pre mid name rest Hline Hfirst Hmid Hname
                     | pre mid tail Hline Hfirst Hmid Htail
                     | pre rest Hline Hfirst Hrest].
  3:{ subst line.
      apply (proj2 (scan_line_incomplete_literal pre (mid ++ dquote ++ tail) output p
                      Hsize Hfirst) mid tail eq_refl Hmid Htail). }
  3:{ subst line.
      apply (proj1 (scan_line_incomplete_literal pre rest output p Hsize Hfirst) Hrest). }
  all: unfold scan_line, find.
  - rewrite (find_from_none _ _ _ Hnone). rewrite app_nil_r. reflexivity.
  - rewrite (find_from_first _ _ _ _ Hfirst). rewrite Z.add_0_l.
    assert (Hlen : length line
                   = (length pre + (length api_call + (length mid
                      + (1 + (length name + (1 + length rest))))))%nat).
    { rewrite Hline. rewrite !length_app. reflexivity. }
    unfold size, npos in Hsize.
    replace (Z.of_nat (length pre) =? npos) with false
      by (symmetry; apply Z.eqb_neq; unfold npos; lia).
    cbn [negb].
    assert (Htail : drop (length pre) line
                    = (api_call ++ mid) ++ dquote ++ name ++ dquote ++ rest).
    { rewrite Hline, drop_app_length, <- app_assoc. reflexivity. }
    set (start := (length api_call + length mid)%nat).
    assert (Hstart : find_first_of (drop (length pre) line) dquote = Z.of_nat start).
    { rewrite Htail. unfold find_first_of.
      rewrite find_first_of_from_quote
        by (apply Forall_app; split; [apply quote_free_api_call | exact Hmid]).
      rewrite length_app. subst start. lia. }
    rewrite (bind_lift_returns _ _ _ (drop (length pre) line))
      by (apply substr_to_end; [lia | unfold size, npos; lia]).
    rewrite Hstart.
    replace (size_t (Z.of_nat (length pre) + Z.of_nat start + 1))
      with (Z.of_nat (length pre + start + 1))
      by (unfold size_t; rewrite Z.mod_small; subst start; lia).
    assert (Hafter : drop (length pre + start + 1) line = name ++ dquote ++ rest).
    { rewrite <- drop_drop, <- drop_drop, Htail. subst start.
      rewrite <- length_app, drop_app_length. reflexivity. }
    rewrite (bind_lift_returns _ _ _ (name ++ dquote ++ rest))
      by (rewrite <- Hafter; apply substr_to_end;
          [subst start; lia | unfold size, npos; lia]).
    unfold find_first_of at 1.
    rewrite find_first_of_from_quote by exact Hname. rewrite Z.add_0_l.
    rewrite (bind_lift_returns _ _ _ (drop (length pre) line))
      by (apply substr_to_end; [lia | unfold size, npos; lia]).
    rewrite (bind_lift_returns _ _ _ name); [reflexivity |].
    replace (size_t (Z.of_nat start + 1)) with (Z.of_nat (start + 1))
      by (unfold size_t; rewrite Z.mod_small; subst start; lia).
    unfold substr, size. rewrite length_drop.
    replace (Z.of_nat (length line - length pre) <? Z.of_nat (start + 1)) with false
      by (symmetry; apply Z.ltb_ge; subst start; lia).
    replace (Z.min (Z.of_nat (length name))
                   (Z.of_nat (length line - length pre) - Z.of_nat (start + 1)))
      with (Z.of_nat (length name)) by (subst start; lia).
    rewrite !Nat2Z.id, drop_drop.
    replace (length pre + (start + 1))%nat with (length pre + start + 1)%nat by lia.
    rewrite Hafter, take_app_length. reflexivity.
Qed.

Lemma scan_lines_names (lines : list (list ascii)) (names : list (list (list ascii)))
    (output : list (list ascii)) (p : process) :
  Forall (fun line => size line < npos) lines ->
  Forall2 line_names lines names ->
  scan_lines lines output p = Returns (output ++ concat names, p).
Proof.
  intros Hsizes Hnames. revert output Hsizes.
  induction Hnames as [| line ns lines names Hline _ IH]; intros output Hsizes.
  - simpl. rewrite app_nil_r. reflexivity.
  - inversion Hsizes as [| ? ? Hsize Hrest]; subst.
    cbn [scan_lines concat].
    rewrite (bind_returns _ _ _ _ _ (scan_line_names _ _ output p Hsize Hline)).
    rewrite IH by exact Hrest. rewrite app_assoc. reflexivity.
Qed.

(** Whether a text occurs in another, and where it does first. *)
Lemma first_occurrence_dec (t s : list ascii) :
  (forall i, ~ occurs_at t s i) \/ exists i, first_occurrence t s i.
Proof.
  induction s as [| c s IH].
  - destruct (starts_with t []) eqn:E.
    + right. exists 0%nat. split; [apply starts_with_occurs; exact E | intros j Hj; lia].
    + left. intros i Hi. unfold occurs_at in Hi. rewrite drop_nil, take_nil in Hi.
      subst t. discriminate.
  - destruct (starts_with t (c :: s)) eqn:E.
    + right. exists 0%nat. split; [apply starts_with_occurs; exact E | intros j Hj; lia].
    + assert (H0 : ~ occurs_at t (c :: s) 0).
      { intros H. apply starts_with_occurs in H. congruence. }
      destruct IH as [Hnone | [i [Hocc Hfirst]]].
      * left. intros [| i]; [exact H0 | apply (Hnone i)].
      * right. exists (S i). split; [exact Hocc |].
        intros [| j] Hj; [exact H0 | apply (Hfirst j); lia].
Qed.

(** A text has no double quote, or is cut at its first one. *)
Lemma quote_split (s : list ascii) :
  quote_free s \/ exists a b, s = a ++ dquote ++ b /\ quote_free a.
Proof.
  induction s as [| c s IH].
  - left. constructor.
  - destruct (Ascii.eqb_spec c "034") as [-> | Hc].
    + right. exists [], s. split; [reflexivity | constructor].
    + destruct IH as [Hfree | (a & b & -> & Ha)].
      * left. constructor; assumption.
      * right. exists (c :: a), b. split; [reflexivity | constructor; assumption].
Qed.

(** Every line has its names. *)
Lemma line_names_total (line : list ascii) : exists names, line_names line names.
Proof.
  destruct (first_occurrence_dec api_call line) as [Hnone | [i Hfirst]].
  { exists []. constructor. exact Hnone. }
  pose proof (proj1 Hfirst) as Hocc. unfold occurs_at in Hocc.
  assert (Hi : (i + length api_call <= length line)%nat).
  { apply (f_equal (@length ascii)) in Hocc. rewrite length_take, length_drop in Hocc.
    cbn [length api_call list_ascii_of_string] in *. lia. }
  set (pre := take i line). set (rest := drop (i + length api_call) line).
  assert (Hpre : length pre = i) by (unfold pre; rewrite length_take; lia).
  assert (Hline : line = pre ++ api_call ++ rest).
  { unfold pre, rest. rewrite <- (take_drop i line) at 1. f_equal.
    rewrite <- (take_drop (length api_call) (drop i line)) at 1.
    rewrite Hocc, drop_drop. reflexivity. }
  rewrite <- Hpre in Hfirst.
  destruct (quote_split rest) as [Hfree | (mid & r & Hrest & Hmid)].
  { exists [api_call ++ rest]. apply (line_without_quote line pre rest); assumption. }
  rewrite Hrest in Hline.
  destruct (quote_split r) as [Hfree | (name & rest' & Hr & Hname)].
  - exists [r]. apply (line_with_one_quote line pre mid r); assumption.
  - rewrite Hr in Hline. exists [name].
    apply (line_with_literal line pre mid name rest'); assumption.
Qed.

(** No line is longer than the text it is cut from. *)
Lemma getlines_from_length (cur input : list ascii) :
  Forall (fun line => (length line <= length cur + length input)%nat)
         (getlines_from cur input).
Proof.
  revert cur. induction input as [| c rest IH]; intros cur; simpl.
  - destruct cur; constructor; [rewrite length_rev; simpl; lia | constructor].
  - destruct (Ascii.eqb c "010").
    + constructor; [rewrite length_rev; lia |].
      eapply Forall_impl; [apply (IH []) |]. simpl. intros; lia.
    + eapply Forall_impl; [apply (IH (c :: cur)) |]. simpl. intros; lia.
Qed.

(** C8 on the code. In the parent, when the pipe and the child are
    created, [udfDatasetNames] returns on every text the preprocessor
    prints, and what it returns is read line by line, not occurrence by
    occurrence: every line has its names ([line_names] holds of every
    line), a line without [lib.getData] gives none, and a line with
    [lib.getData] gives one name, read after its first [lib.getData],
    whatever else the line holds. A second call on the same line is never
    read, and a line whose first call has no string literal after it still
    gives a name. Equal names are kept and the order is that of the
    lines. *)
Theorem udfDatasetNames_first_call_of_line (udf_file : string) (p : process) :
  let input := piped host ["g++"; "-fpreprocessed"; "-dD"; "-E"; udf_file]%string
                 (files p) in
  0 <= pipe host ->
  0 < fork host ->
  size input < npos ->
  (exists names, Forall2 line_names (getlines input) names)
  /\ (forall names, Forall2 line_names (getlines input) names ->
        udfDatasetNames host udf_file p = Returns (concat names, p)).
Proof.
  intros input Hpipe Hpid Hsize. split.
  - induction (getlines input) as [| line lines [names IH]].
    + exists []. constructor.
    + destruct (line_names_total line) as [ns Hline].
      exists (ns :: names). constructor; assumption.
  - intros names Hnames.
    destruct (pid_parent _ Hpid) as [Hz Hpos].
    unfold udfDatasetNames.
    replace (pipe host <? 0) with false by (symmetry; apply Z.ltb_ge; lia).
    rewrite Hz, Hpos.
    unfold bind at 1. unfold read_pipe, outcome_bind, fst, snd. fold input.
    apply (scan_lines_names _ names []); [| exact Hnames].
    eapply Forall_impl; [apply getlines_from_length |].
    intros line Hline. unfold size in *. simpl in Hline. lia.
Qed.

End ScannerProperties.

(** The scanner on two calls in one line: the first name only. *)
Lemma udfDatasetNames_first_call_of_line_witness :
  udfDatasetNames (example_host 7 true two_calls_one_line) "udf.cpp" empty_process
  = Returns (concat [[list_ascii_of_string "a"]], empty_process).
Proof.
  apply (proj2 (udfDatasetNames_first_call_of_line
                  (example_host 7 true two_calls_one_line) "udf.cpp" empty_process
                  ltac:(vm_compute; discriminate) eq_refl ltac:(vm_compute; reflexivity))).
  change (Forall2 line_names (getlines two_calls_one_line) [[list_ascii_of_string "a"]]).
  repeat constructor.
  apply (line_with_literal _ [] (list_ascii_of_string "<int>(") (list_ascii_of_string "a")
           (list_ascii_of_string "); lib.getData<int>(" ++ dquote
            ++ list_ascii_of_string "b" ++ dquote ++ list_ascii_of_string ");")).
  - vm_compute. reflexivity.
  - split; [vm_compute; reflexivity |].
    intros j Hj. simpl in Hj. lia.
  - repeat constructor; discriminate.
  - repeat constructor; discriminate.
Defined.

(** The same line under the two readings: the text has two occurrences
    of [lib.getData], at the indices 0 and 23, and the reading by
    occurrence gives two names, while [udfDatasetNames] returns the first
    only. *)
Lemma udfDatasetNames_not_by_occurrence :
  occurrences api_call two_calls_one_line = [0%nat; 23%nat]
  /\ names_per_occurrence two_calls_one_line
     = [list_ascii_of_string "a"; list_ascii_of_string "b"]
  /\ udfDatasetNames (example_host 7 true two_calls_one_line) "udf.cpp" empty_process
     = Returns ([list_ascii_of_string "a"], empty_process)
  /\ udfDatasetNames (example_host 7 true two_calls_one_line) "udf.cpp" empty_process
     <> Returns (names_per_occurrence two_calls_one_line, empty_process).
Proof.
  repeat split; try (vm_compute; reflexivity).
  vm_compute. discriminate.
Qed.

(** ** The sandbox library *)

Import SandboxLibrary.

(** [path.find("*") == std::string::npos] says that no character of the
    path is a [*]. *)
Lemma index_star (s : string) :
  String.index 0 "*" s = None <-> "*"%char ∉ list_ascii_of_string s.
Proof.
  induction s as [| c s IH]; cbn [String.index String.prefix list_ascii_of_string].
  - split; [intros _ H; inversion H | reflexivity].
  - destruct (ascii_dec "*" c) as [<- | Hc].
    + replace (String.prefix "" s) with true by (destruct s; reflexivity).
      split; [discriminate | intros H; destruct H; left].
    + destruct (String.index 0 "*" s) as [n |].
      * split; [discriminate |]. intros H. exfalso. apply H. right.
        destruct (decide ("*"%char ∈ list_ascii_of_string s)) as [Hin | Hout];
          [exact Hin | apply IH in Hout; discriminate].
      * split; [| reflexivity]. intros _ H.
        apply elem_of_cons in H as [H | H]; [congruence |].
        apply (proj1 IH); [reflexivity | exact H].
Qed.

Lemma expand_entry_expansion (glob : string -> Z -> Z * list string)
    (allowed : list string) (entry : string) :
  expand_entry glob allowed entry = allowed ++ expansion glob entry.
Proof.
  unfold expand_entry, expansion.
  destruct (String.index 0 "*" entry) as [n |] eqn:E.
  - rewrite decide_True.
    + destruct (glob entry GLOB_NOSORT) as [rc paths]. simpl.
      destruct (rc =? 0); simpl; [reflexivity | symmetry; apply app_nil_r].
    + destruct (decide ("*"%char ∈ list_ascii_of_string entry)) as [H | H];
        [exact H | apply index_star in H; congruence].
  - rewrite decide_False; [reflexivity |]. apply index_star, E.
Qed.

Lemma fold_expand_entry (glob : string -> Z -> Z * list string)
    (files allowed : list string) :
  fold_left (expand_entry glob) files allowed
  = allowed ++ concat (map (expansion glob) files).
Proof.
  revert allowed. induction files as [| entry files IH]; intros allowed; simpl.
  - symmetry. apply app_nil_r.
  - rewrite IH, expand_entry_expansion, app_assoc. reflexivity.
Qed.

(** The loop of [test_file_ok]: 1 and [*ret] untouched when the path is an
    entry of the list, 0 and [*ret = -EPERM] when it is not. *)
Lemma test_file_ok_member (allowed : list string) (path : string) (ret : Z) :
  test_file_ok allowed path ret
  = if decide (path ∈ allowed) then (1, ret) else (0, - EPERM).
Proof.
  induction allowed as [| entry allowed IH]; cbn [test_file_ok].
  - destruct (decide (path ∈ [])) as [H | H]; [inversion H | reflexivity].
  - destruct (String.eqb_spec entry path) as [-> | Hne].
    + destruct (decide (path ∈ path :: allowed)) as [H | H];
        [reflexivity | destruct H; left].
    + rewrite IH.
      destruct (decide (path ∈ allowed)) as [Hin | Hout],
               (decide (path ∈ entry :: allowed)) as [Hin' | Hout'];
        try reflexivity.
      * destruct Hout'. right. exact Hin.
      * apply elem_of_cons in Hin' as [H | H]; [congruence | contradiction].
Qed.

(** C6. With the hook installed, a system call whose path argument (the
    first argument of [stat], [lstat] and [open], the second of [openat])
    is an entry of the allowlist, as a string, is left to the kernel by the
    hook (value 1, [*ret] untouched): the original system call executes.
    One whose path is no entry is taken over (value 0) with
    [*ret = -EPERM], and the call returns [-EPERM] whatever the kernel
    would do. [fstat] and every other system call are left to the
    kernel. *)
Theorem syscall_intercept_policy (lib : library) (cstring : Z -> string)
    (kernel : Z -> Z -> Z -> Z -> Z -> Z -> Z -> Z)
    (syscall_nr arg0 arg1 arg2 arg3 arg4 arg5 ret : Z) :
  let hook := syscall_intercept (files_allowed lib) cstring
                syscall_nr arg0 arg1 arg2 arg3 arg4 arg5 ret in
  let call := fst (intercepted lib cstring kernel ret
                     syscall_nr arg0 arg1 arg2 arg3 arg4 arg5) in
  let original := kernel syscall_nr arg0 arg1 arg2 arg3 arg4 arg5 in
  let checked path :=
    (path ∈ files_allowed lib -> hook = (1, ret) /\ call = original)
    /\ (path ∉ files_allowed lib -> hook = (0, - EPERM) /\ call = - EPERM) in
  intercept_hook_point lib = Some syscall_intercept ->
  (syscall_nr = SYS_stat \/ syscall_nr = SYS_lstat \/ syscall_nr = SYS_open ->
   checked (cstring arg0))
  /\ (syscall_nr = SYS_openat -> checked (cstring arg1))
  /\ (syscall_nr = SYS_fstat -> hook = (1, ret) /\ call = original)
  /\ (syscall_nr <> SYS_stat -> syscall_nr <> SYS_lstat -> syscall_nr <> SYS_open ->
      syscall_nr <> SYS_openat -> hook = (1, ret) /\ call = original).
Proof.
  intros hook call original checked Hhook.
  assert (Hcall : call = if fst hook =? 0 then snd hook else original).
  { subst call hook original. unfold intercepted. rewrite Hhook.
    destruct (syscall_intercept _ _ _ _ _ _ _ _ _ _) as [forward result]. simpl.
    destruct (forward =? 0); reflexivity. }
  assert (Hchecked : forall path,
             hook = test_file_ok (files_allowed lib) path ret -> checked path).
  { intros path Hpath. subst checked. cbv beta. rewrite Hcall, Hpath, test_file_ok_member.
    split; intros Hin.
    - rewrite decide_True by exact Hin. split; reflexivity.
    - rewrite decide_False by exact Hin. split; reflexivity. }
  assert (Hforward : hook = (1, ret) -> hook = (1, ret) /\ call = original).
  { intros H. split; [exact H |]. rewrite Hcall, H. reflexivity. }
  subst hook. unfold syscall_intercept in *.
  split; [| split; [| split]].
  - intros [-> | [-> | ->]]; apply Hchecked; reflexivity.
  - intros ->. apply Hchecked. reflexivity.
  - intros ->. apply Hforward. reflexivity.
  - intros Hstat Hlstat Hopen Hopenat. apply Hforward.
    apply Z.eqb_neq in Hstat, Hlstat, Hopen, Hopenat.
    rewrite Hstat, Hlstat, Hopen, Hopenat. reflexivity.
Qed.



(** The default policy denies [open] of [/etc/passwd]. *)
Lemma syscall_intercept_policy_witness :
  syscall_intercept (files_allowed (loaded example_glob)) example_cstring
    SYS_open 1 0 0 0 0 0 0 = (0, - EPERM)
  /\ fst (intercepted (loaded example_glob) example_cstring
            (fun _ _ _ _ _ _ _ => 3) 0 SYS_open 1 0 0 0 0 0) = - EPERM.
Proof.
  destruct (syscall_intercept_policy (loaded example_glob) example_cstring
              (fun _ _ _ _ _ _ _ => 3) SYS_open 1 0 0 0 0 0 0 eq_refl) as [Hpath _].
  destruct (Hpath (or_intror (or_intror eq_refl))) as [_ Hdeny].
  apply Hdeny. vm_compute. intros H. apply list_elem_of_singleton in H. discriminate.
Defined.

(** ** The scanner never throws *)

Lemma find_from_range (s t : list ascii) (pos : Z) :
  find_from s t pos = npos \/ pos <= find_from s t pos <= pos + size s.
Proof.
  revert pos. induction s as [| c s IH]; intros pos; rewrite find_from_unfold.
  - destruct (starts_with t []); [right; unfold size; simpl; lia | left; reflexivity].
  - destruct (starts_with t (c :: s)).
    + right. unfold size. simpl length. lia.
    + destruct (IH (pos + 1)) as [H | H]; [left; exact H | right].
      unfold size in *. simpl length. lia.
Qed.

Lemma find_first_of_from_range (s chars : list ascii) (pos : Z) :
  find_first_of_from s chars pos = npos
  \/ pos <= find_first_of_from s chars pos < pos + size s.
Proof.
  revert pos. induction s as [| c s IH]; intros pos; simpl.
  - left. reflexivity.
  - destruct (existsb (Ascii.eqb c) chars).
    + right. unfold size. simpl length. lia.
    + destruct (IH (pos + 1)) as [H | H]; [left; exact H | right].
      unfold size in *. simpl length. lia.
Qed.

(** [substr] returns when the position is inside the string or at its
    end. *)
Lemma substr_inside (s : list ascii) (pos len : Z) :
  0 <= pos <= size s ->
  substr s pos len
  = Returns (take (Z.to_nat (Z.min len (size s - pos))) (drop (Z.to_nat pos) s)).
Proof.
  intros H. unfold substr.
  replace (size s <? pos) with false by (symmetry; apply Z.ltb_ge; lia).
  reflexivity.
Qed.

Lemma size_drop (s : list ascii) (pos : Z) :
  0 <= pos <= size s -> size (drop (Z.to_nat pos) s) = size s - pos.
Proof. intros H. unfold size in *. rewrite length_drop. lia. Qed.

Lemma substr_tail (s : list ascii) (pos : Z) :
  0 <= pos <= size s -> size s < npos ->
  substr s pos npos = Returns (drop (Z.to_nat pos) s).
Proof.
  intros H Hs. rewrite substr_inside by exact H.
  rewrite take_ge; [reflexivity |].
  pose proof (size_drop s pos H) as Hd. unfold size in *. lia.
Qed.

(** X3. On every line, one round of the loop of [udfDatasetNames] returns: no
    call of [substr] throws, also when no double quote follows
    [lib.getData] and [n + start + 1] wraps around; and the round appends
    one name at most. *)
Theorem scan_line_returns (line : list ascii) (output : list (list ascii))
    (p : process) :
  size line < npos ->
  exists names,
    scan_line line output p = Returns (output ++ names, p)
    /\ (length names <= 1)%nat.
Proof.
  intros Hsize. unfold scan_line, find.
  assert (Hnpos : npos = 2 ^ 64 - 1) by reflexivity.
  assert (Hsz : 0 <= size line) by (unfold size; lia).
  destruct (find_from_range line api_call 0) as [Hn | Hn].
  { rewrite Hn. exists []. rewrite app_nil_r. split; [reflexivity | simpl; lia]. }
  remember (find_from line api_call 0) as n eqn:En. clear En.
  replace (n =? npos) with false by (symmetry; apply Z.eqb_neq; lia).
  cbn [negb].
  assert (Htail : substr line n npos = Returns (drop (Z.to_nat n) line))
    by (apply substr_tail; lia).
  assert (Htsize : size (drop (Z.to_nat n) line) = size line - n)
    by (apply size_drop; lia).
  rewrite (bind_lift_returns _ _ _ _ Htail).
  remember (drop (Z.to_nat n) line) as tail eqn:Et. clear Et.
  unfold find_first_of. cbv zeta.
  destruct (find_first_of_from_range tail dquote 0) as [Hs | Hs].
  - rewrite Hs.
    replace (size_t (n + npos + 1)) with n
      by (unfold size_t; rewrite Hnpos;
          replace (n + (2 ^ 64 - 1) + 1) with (n + 1 * 2 ^ 64) by lia;
          rewrite Z.mod_add by lia; rewrite Z.mod_small; lia).
    rewrite (bind_lift_returns _ _ _ _ Htail).
    rewrite (bind_lift_returns _ _ _ _ Htail).
    replace (size_t (npos + 1)) with 0 by (rewrite Hnpos; reflexivity).
    rewrite (bind_lift_returns _ _ _ _ (substr_inside tail 0 _ ltac:(lia))).
    eexists [_]. split; [reflexivity | simpl; lia].
  - remember (find_first_of_from tail dquote 0) as start eqn:Es. clear Es.
    replace (size_t (n + start + 1)) with (n + start + 1)
      by (unfold size_t; rewrite Z.mod_small; lia).
    rewrite (bind_lift_returns _ _ _ _ (substr_inside line (n + start + 1) _ ltac:(lia))).
    rewrite (bind_lift_returns _ _ _ _ Htail).
    replace (size_t (start + 1)) with (start + 1)
      by (unfold size_t; rewrite Z.mod_small; lia).
    rewrite (bind_lift_returns _ _ _ _ (substr_inside tail (start + 1) _ ltac:(lia))).
    eexists [_]. split; [reflexivity | simpl; lia].
Qed.

(** ** Further properties of the backend *)

(** The loop that fills the tables appends, to each of the four vectors,
    one element per dataset, in the order of the datasets. *)
Lemma fold_push_dataset (datasets : list DatasetInfo) (t : tables) :
  fold_left push_dataset datasets t
  = Tables (hdf5_udf_data t ++ map data datasets)
           (hdf5_udf_names t ++ map name datasets)
           (hdf5_udf_types t ++ map getDatatype datasets)
           (hdf5_udf_dims t ++ map dimensions datasets).
Proof.
  revert t. induction datasets as [| d datasets IH]; intros t; simpl.
  - rewrite !app_nil_r. destruct t; reflexivity.
  - rewrite IH. unfold push_dataset. simpl. rewrite <- !app_assoc. reflexivity.
Qed.

Section MoreBackendProperties.
Variable host : Host.

(** X2. When the shared object opens, its five symbols resolve and the sandbox
    is ready, the UDF runs on tables whose index 0 is the output dataset, with
    the shared region as its data, followed by the input datasets in the
    order the caller gave; the child then ends by [_exit(0)]. *)
Theorem run_child_tables (filterpath : string) (inputs : list DatasetInfo)
    (output : DatasetInfo) (so_file : string) (mm : Z) (region : list byte) :
  let t0 := shlib_tables host in
  let filled :=
    Tables (hdf5_udf_data t0 ++ mm :: map data inputs)
           (hdf5_udf_names t0 ++ name output :: map name inputs)
           (hdf5_udf_types t0 ++ getDatatype output :: map getDatatype inputs)
           (hdf5_udf_dims t0 ++ dimensions output :: map dimensions inputs) in
  shlib_open host so_file = true ->
  Forall (fun symbol => shlib_loadsym host symbol <> 0)
         ["dynamic_dataset"; "hdf5_udf_data"; "hdf5_udf_names"; "hdf5_udf_types";
          "hdf5_udf_dims"]%string ->
  (if ENABLE_SANDBOX host then sandbox_init host filterpath else true) = true ->
  run_child host filterpath inputs output so_file mm region
  = match udf host filled region with
    | (UdfReturns, region') => (Exits 0, region')
    | (UdfKilled s, region') => (Killed s, region')
    end.
Proof.
  intros t0 filled Hopen Hsyms Hready.
  repeat match goal with
         | H : Forall _ (_ :: _) |- _ => apply Forall_cons in H as [? H]
         end.
  unfold run_child. rewrite Hopen, Hready. cbn [negb].
  repeat match goal with
         | H : shlib_loadsym host _ <> 0 |- _ => apply Z.eqb_neq in H; rewrite H; clear H
         end.
  cbn [orb]. rewrite fold_push_dataset. reflexivity.
Qed.

(** X5. When the compiler leaves a file at [<udf_file>.so], [compile] reads
    it, unlinks it and the assembled source, and returns what
    [compressBuffer] makes of its bytes. *)
Theorem compile_reads_output (udf_file template_file cpp_file : string)
    (fs : gmap string file) (object : file) (p : process) :
  let output := (udf_file +:+ ".so")%string in
  let cmd := ["g++"; "-rdynamic"; "-shared"; "-fPIC"; "-flto"; "-Os"; "-C"; "-o";
              output; cpp_file]%string in
  assembleUDF host udf_file template_file "// user_callback_placeholder" extension (files p)
  = (cpp_file, fs) ->
  cpp_file <> ""%string ->
  0 < fork host ->
  spawned host cmd fs !! output = Some object ->
  compile host udf_file template_file p
  = compressBuffer (miniz host) (contents object)
      (Process (delete cpp_file (delete output (spawned host cmd fs)))
               (stderr p) (memory p)).
Proof.
  intros output cmd Hasm Hne Hpid Hfound.
  destruct (pid_parent _ Hpid) as [Hz Hpos].
  unfold compile.
  rewrite (bind_returns _ _ _ _ _ (on_files_returns _ _ _ _ Hasm)).
  rewrite (string_length_nonzero _ Hne).
  fold output. fold cmd. rewrite Hz, Hpos.
  unfold bind at 1. unfold wait_spawned, outcome_bind, fst, snd.
  unfold bind at 1. unfold stat_ok, outcome_bind, fst, snd, files.
  rewrite Hfound.
  rewrite bool_decide_eq_true_2 by (eexists; reflexivity).
  unfold bind at 1. unfold bind at 1. unfold read_file at 1.
  unfold outcome_bind, fst, snd, files. rewrite Hfound.
  unfold bind at 1. unfold unlink at 1. unfold outcome_bind, fst, snd, ret.
  unfold bind at 1. unfold unlink at 1. unfold outcome_bind, fst, snd.
  reflexivity.
Qed.

End MoreBackendProperties.

(** X4. A blob that [decompressBuffer] accepts decompresses to as many
    bytes as its trailer, the last eight bytes of the blob, says. *)
Theorem decompressBuffer_length (mz : Miniz) (data d : list byte) (p p' : process) :
  Z.of_nat (length data) < 2 ^ 64 ->
  decompressBuffer mz data p = Returns (d, p') ->
  d <> [] ->
  Z.of_nat (length d) = le_combine (drop (length data - 8) data).
Proof.
  intros Hlen Hdec Hd.
  destruct (Z.ltb_spec (Z.of_nat (length data)) 8) as [Hshort | Hlong].
  { unfold decompressBuffer in Hdec.
    rewrite (bind_lift_out_of_bounds _ _ _ (load_trailer_short data Hshort)) in Hdec.
    discriminate. }
  unfold decompressBuffer in Hdec.
  assert (Hload : load data (size_t (Z.of_nat (length data) - 8)) 8
                  = Returns (drop (length data - 8) data)).
  { rewrite <- (take_drop (length data - 8) data) at 1 2.
    apply load_trailer; [rewrite length_drop; lia | rewrite length_take; lia]. }
  rewrite (bind_lift_returns _ _ _ _ Hload) in Hdec.
  set (usize := le_combine (drop (length data - 8) data)) in *.
  apply bind_returns_inv in Hdec as (buf & p1 & Hbuf & Hdec).
  apply lift_returns_inv in Hbuf as [Hbuf ->].
  apply resize_returns_inv in Hbuf as [_ ->].
  destruct (mz_uncompress mz usize _) as [status out].
  unfold bind, lift, store in Hdec.
  destruct ((0 <=? 0) && (0 + Z.of_nat (length out) <=? Z.of_nat (length (resized [] usize))))
    eqn:Hfit; simpl in Hdec; [| discriminate].
  apply andb_true_iff in Hfit as [_ Hfit]. apply Z.leb_le in Hfit.
  rewrite resized_nil_length in Hfit.
  destruct (negb (status =? Z_OK)); simpl in Hdec; injection Hdec as <- <-.
  - contradiction.
  - rewrite length_app, length_drop, resized_nil_length.
    assert (0 <= usize) by (apply le_combine_bound).
    lia.
Qed.

(** ** The further properties on the concrete inputs *)

Lemma scan_line_returns_witness :
  exists names,
    scan_line (list_ascii_of_string "lib.getData(x)") [] empty_process
    = Returns ([] ++ names, empty_process)
    /\ (length names <= 1)%nat.
Proof.
  apply (scan_line_returns (list_ascii_of_string "lib.getData(x)") [] empty_process).
  vm_compute. reflexivity.
Defined.

Lemma run_child_tables_witness :
  run_child (example_host 0 true two_calls) "file.h5" [example_input] example_output
    "/tmp/udf-shlib.cpp" 4096 (repeat Byte.x00 16)
  = match udf (example_host 0 true two_calls)
            (Tables ([] ++ 4096 :: map data [example_input])
                    ([] ++ "out"%string :: map name [example_input])
                    ([] ++ "int32"%string :: map getDatatype [example_input])
                    ([] ++ [4] :: map dimensions [example_input]))
            (repeat Byte.x00 16) with
    | (UdfReturns, region') => (Exits 0, region')
    | (UdfKilled s, region') => (Killed s, region')
    end.
Proof.
  apply (run_child_tables (example_host 0 true two_calls) "file.h5" [example_input]
           example_output "/tmp/udf-shlib.cpp" 4096 (repeat Byte.x00 16)).
  - reflexivity.
  - repeat constructor; discriminate.
  - reflexivity.
Defined.

Lemma compile_reads_output_witness :
  compile (with_compiler (example_host 7 true two_calls)) "udf.cpp" "template.cpp"
    empty_process
  = compressBuffer stored_codec abc
      (Process (delete "/tmp/udf-assembled.cpp"%string
                  (delete "udf.cpp.so"%string
                     (<["udf.cpp.so"%string := File abc 493]>
                        (<["/tmp/udf-assembled.cpp"%string := File [] 420]> ∅))))
               [] ∅).
Proof.
  apply (compile_reads_output (with_compiler (example_host 7 true two_calls)) "udf.cpp"
           "template.cpp" "/tmp/udf-assembled.cpp"
           (<["/tmp/udf-assembled.cpp"%string := File [] 420]> ∅) (File abc 493)
           empty_process).
  - reflexivity.
  - discriminate.
  - reflexivity.
  - vm_compute. reflexivity.
Defined.

Lemma decompressBuffer_length_witness :
  Z.of_nat (length abc) = le_combine (drop (length example_blob - 8) example_blob).
Proof.
  apply (decompressBuffer_length stored_codec example_blob abc empty_process
           empty_process).
  - vm_compute. reflexivity.
  - vm_compute. reflexivity.
  - discriminate.
Defined.

Lemma run_reported_failures_witness :
  exists p',
    run (example_host 7 true two_calls) "file.h5" [] example_output "int32"
        (le_split 8 0) example_process
    = Returns (false, p')
    /\ memory p' = memory example_process.
Proof.
  apply (run_reported_failures (example_host 7 true two_calls) "file.h5" []
           example_output "int32" (le_split 8 0) [] example_process example_process
           "/tmp/udf-shlib.cpp" (<["/tmp/udf-shlib.cpp"%string := File [] 384]> ∅)).
  - vm_compute. reflexivity.
  - reflexivity.
  - left. reflexivity.
Defined.

(** ** Inversion of the codec *)

(** What [compressBuffer] can return, whatever the codec: the empty
    string after one diagnostic line, when miniz does not report [Z_OK]; or
    the bytes miniz wrote followed by the length of the input in eight
    little-endian bytes, with no diagnostic. *)
Lemma compressBuffer_returns_inv (mz : Miniz) (x blob : list byte) (p p' : process) :
  compressBuffer mz x p = Returns (blob, p') ->
  let result := mz_compress mz (mz_compressBound mz (Z.of_nat (length x))) x in
  (fst result <> Z_OK /\ blob = []
   /\ p' = Process (files p) (stderr p ++ ["Failed to compress input buffer"%string])
                   (memory p))
  \/ (fst result = Z_OK /\ blob = snd result ++ le_split 8 (Z.of_nat (length x))
      /\ p' = p).
Proof.
  intros H. cbv zeta. unfold compressBuffer in H.
  assert (Ht := length_le_split 8 (Z.of_nat (length x))).
  remember (le_split 8 (Z.of_nat (length x))) as trailer eqn:Et. clear Et.
  apply bind_returns_inv in H as (buf0 & p0 & Hbuf0 & H).
  apply lift_returns_inv in Hbuf0 as [_ ->].
  destruct (mz_compress mz _ x) as [status out]. cbn [fst snd].
  apply bind_returns_inv in H as (buf1 & p1 & Hstore1 & H).
  apply lift_returns_inv in Hstore1 as [Hstore1 ->].
  apply store_returns_inv in Hstore1 as (_ & Hfit1 & ->).
  destruct (Z.eqb_spec status Z_OK) as [-> | Hne]; cbn [negb] in H.
  - right. apply bind_returns_inv in H as (buf2 & p2 & Hstore2 & H).
    apply lift_returns_inv in Hstore2 as [Hstore2 ->].
    apply store_returns_inv in Hstore2 as (_ & Hfit2 & ->).
    apply bind_returns_inv in H as (buf3 & p3 & Hbuf3 & H).
    apply lift_returns_inv in Hbuf3 as [Hbuf3 ->].
    apply resize_returns_inv in Hbuf3 as [_ ->].
    unfold ret in H. injection H as <- <-.
    split; [reflexivity | split; [| reflexivity]].
    rewrite Nat2Z.id, take_app_length.
    rewrite app_assoc. apply resized_prefix.
    rewrite length_app, Ht. lia.
  - left. unfold bind, fprintf_stderr, outcome_bind, ret in H. simpl in H.
    injection H as <- <-. repeat split. exact Hne.
Qed.

(** X6. Every blob [compressBuffer] returns, whatever the codec does, is
    either empty or the codec's output followed by the trailer: at least
    eight bytes long, and ending with the length of the input in eight
    little-endian bytes. *)
Theorem compressBuffer_blob_framed (mz : Miniz) (x blob : list byte) (p p' : process) :
  compressBuffer mz x p = Returns (blob, p') ->
  blob <> [] ->
  (8 <= length blob)%nat
  /\ drop (length blob - 8) blob = le_split 8 (Z.of_nat (length x))
  /\ le_combine (drop (length blob - 8) blob) = size_t (Z.of_nat (length x))
  /\ p' = p.
Proof.
  intros H Hne.
  destruct (compressBuffer_returns_inv _ _ _ _ _ H) as [(_ & -> & _) | (_ & -> & ->)];
    [contradiction |].
  rewrite length_app, length_le_split.
  replace (length _ + 8 - 8)%nat with
    (length (snd (mz_compress mz (mz_compressBound mz (Z.of_nat (length x))) x))) by lia.
  rewrite drop_app_length. repeat split; [lia |].
  rewrite le_combine_split. reflexivity.
Qed.

(** ** The paths of [compile] *)

Section CompilePaths.
Variable host : Host.

(** X7. Whatever the host does, a blob [compile] returns is either empty
    or at least eight bytes long, so that the trailer read of
    [decompressBuffer] on a non-empty result of [compile] is inside the
    blob. *)
Theorem compile_blob_empty_or_framed (udf_file template_file : string)
    (blob : list byte) (p p' : process) :
  compile host udf_file template_file p = Returns (blob, p') ->
  blob = [] \/ (8 <= length blob)%nat.
Proof.
  unfold compile. intros H.
  apply bind_returns_inv in H as (cpp_file & p1 & _ & H).
  destruct (String.length cpp_file =? 0)%nat.
  { left. unfold bind, fprintf_stderr, outcome_bind, ret in H. simpl in H.
    injection H as <- _. reflexivity. }
  destruct (fork host =? 0).
  { left. apply bind_returns_inv in H as ([] & p2 & _ & H).
    unfold bind, fprintf_stderr, outcome_bind, ret in H. simpl in H.
    injection H as <- _. reflexivity. }
  destruct (0 <? fork host).
  - apply bind_returns_inv in H as ([] & p2 & _ & H).
    apply bind_returns_inv in H as (found & p3 & _ & H).
    apply bind_returns_inv in H as (bytecode & p4 & _ & H).
    apply bind_returns_inv in H as ([] & p5 & _ & H).
    destruct (compressBuffer_returns_inv _ _ _ _ _ H) as [(_ & -> & _) | (_ & -> & _)];
      [left; reflexivity | right].
    rewrite length_app, length_le_split. lia.
  - left. unfold bind, fprintf_stderr, outcome_bind, ret in H. simpl in H.
    injection H as <- _. reflexivity.
Qed.

(** X8. The two failures [compile] reports: when assembly fails, and when
    [fork] fails after assembly, it returns the empty blob and writes one
    diagnostic line; it starts no compiler, and after a failed [fork] the
    assembled source file is still on disk, the file system being as
    [assembleUDF] left it. *)
Theorem compile_reported_failures (udf_file template_file cpp_file : string)
    (fs : gmap string file) (p : process) :
  assembleUDF host udf_file template_file "// user_callback_placeholder" extension (files p)
  = (cpp_file, fs) ->
  (cpp_file = ""%string ->
   compile host udf_file template_file p
   = Returns ([], Process fs (stderr p ++ ["Will not be able to compile the UDF code"%string])
                          (memory p)))
  /\ (cpp_file <> ""%string -> fork host < 0 ->
      compile host udf_file template_file p
      = Returns ([], Process fs (stderr p ++ ["Failed to execute g++"%string]) (memory p))).
Proof.
  intros Hasm. split.
  - intros ->. unfold compile.
    rewrite (bind_returns _ _ _ _ _ (on_files_returns _ _ _ _ Hasm)). reflexivity.
  - intros Hne Hpid. destruct (pid_failure _ Hpid) as [Hz Hneg]. unfold compile.
    rewrite (bind_returns _ _ _ _ _ (on_files_returns _ _ _ _ Hasm)).
    rewrite (string_length_nonzero _ Hne), Hz, Hneg. reflexivity.
Qed.

End CompilePaths.

(** ** The paths of [run] *)

Section RunPaths.
Variable host : Host.

(** The block of the child returns [false] when it returns. *)
Lemma run_child_returns_false (filterpath : string) (inputs : list DatasetInfo)
    (output : DatasetInfo) (so_file : string) (mm : Z) (region : list byte) (b : bool) :
  fst (run_child host filterpath inputs output so_file mm region) = Returns b ->
  b = false.
Proof.
  unfold run_child.
  destruct (negb (shlib_open host so_file)); [intros H; injection H as <-; reflexivity |].
  destruct (_ || _); [intros H; injection H as <-; reflexivity |].
  destruct (if ENABLE_SANDBOX host then _ else _); [| discriminate].
  destruct (udf host _ region) as [[| s] r]; discriminate.
Qed.

(** [memcpy_out] changes the block at its destination and nothing else. *)
Lemma memcpy_out_returns_inv (dst : Z) (src : list byte) (n : Z) (p p' : process) :
  memcpy_out dst src n p = Returns (tt, p') ->
  files p' = files p /\ stderr p' = stderr p
  /\ forall a, a <> dst -> memory p' !! a = memory p !! a.
Proof.
  unfold memcpy_out. destruct (memory p !! dst) as [buf |]; [| discriminate].
  destruct (load src 0 n) as [bytes | | | | |]; simpl; try discriminate.
  destruct (store buf 0 bytes) as [buf' | | | | |]; simpl; try discriminate.
  intros H. injection H as <-. simpl. repeat split.
  intros a Ha. apply lookup_insert_ne. congruence.
Qed.

(** Every way in which [run] returns: with [false] before the fork, in
    the child with what the block of the child returns, or with [true] in
    the parent and after a failed fork, the shared object unlinked. *)
Lemma run_returns_inv (filterpath : string) (inputs : list DatasetInfo)
    (output : DatasetInfo) (cast : string) (blob : list byte) (p p' : process)
    (b : bool) :
  run host filterpath inputs output cast blob p = Returns (b, p') ->
  exists d p1 so_file fs,
    decompressBuffer (miniz host) blob p = Returns (d, p1)
    /\ writeToDisk host d extension (files p1) = (so_file, fs)
    /\ (forall a, a <> data output -> memory p' !! a = memory p !! a)
    /\ ((d = [] /\ b = false /\ memory p' = memory p /\ files p' = files p)
        \/ (d <> [] /\ so_file = ""%string /\ b = false /\ memory p' = memory p
            /\ files p' = fs)
        \/ (d <> [] /\ so_file <> ""%string /\ fork host = 0 /\ b = false
            /\ memory p' = memory p)
        \/ (d <> [] /\ so_file <> ""%string /\ fork host <> 0
            /\ files p' !! so_file = None
            /\ (b = true \/ memory p' = memory p))).
Proof.
  unfold run. intros H.
  apply bind_returns_inv in H as (d & p1 & Hdec & H).
  destruct (decompressBuffer_frame _ _ _ _ _ Hdec) as [Hfiles Hmem].
  destruct (writeToDisk host d extension (files p1)) as [so_file fs] eqn:Hwrite.
  exists d, p1, so_file, fs. split; [exact Hdec | split; [exact Hwrite |]].
  destruct d as [| byte0 d]; cbn [length Nat.eqb] in H.
  { unfold bind, fprintf_stderr, outcome_bind, ret in H. simpl in H.
    injection H as <- <-. simpl. rewrite Hmem.
    split; [reflexivity | left; repeat split; assumption]. }
  rewrite (bind_returns _ _ _ _ _ (on_files_returns _ _ _ _ Hwrite)) in H.
  destruct (String.length so_file =? 0)%nat eqn:Hso.
  { apply string_length_zero in Hso.
    unfold bind, fprintf_stderr, outcome_bind, ret in H. simpl in H.
    injection H as <- <-. simpl. rewrite Hmem.
    split; [reflexivity | right; left; repeat split; [discriminate | assumption]]. }
  assert (Hne : so_file <> ""%string).
  { intros ->. discriminate. }
  unfold bind at 1 in H. unfold chmod at 1 in H. unfold outcome_bind, fst, snd in H.
  destruct (mm_create host _) as [mm |].
  2:{ unfold bind, unlink, outcome_bind, ret in H. simpl in H.
      injection H as <- <-. simpl. rewrite Hmem. split; [reflexivity |].
      destruct (Z.eq_dec (fork host) 0) as [Hz | Hnz].
      - right; right; left. repeat split; [discriminate | assumption | assumption].
      - right; right; right. repeat split; try assumption; [discriminate | | right; reflexivity].
        apply lookup_delete_eq. }
  destruct (Z.eqb_spec (fork host) 0) as [Hz | Hnz].
  { apply lift_returns_inv in H as [Hchild ->].
    apply run_child_returns_false in Hchild as ->. simpl. rewrite Hmem.
    split; [reflexivity |].
    right; right; left. repeat split; [discriminate | assumption | assumption]. }
  apply bind_returns_inv in H as ([] & p3 & Hcopy & H).
  unfold bind, unlink, outcome_bind, ret in H. simpl in H. injection H as <- <-.
  destruct (0 <? fork host).
  - apply memcpy_out_returns_inv in Hcopy as (Hf & _ & Hframe). simpl in *.
    split; [intros a Ha; rewrite (Hframe a Ha), Hmem; reflexivity |].
    right; right; right. repeat split; try assumption; [discriminate | | left; reflexivity].
    apply lookup_delete_eq.
  - unfold ret in Hcopy. injection Hcopy as <-. simpl. rewrite Hmem.
    split; [reflexivity |].
    right; right; right. repeat split; try assumption; [discriminate | | left; reflexivity].
    apply lookup_delete_eq.
Qed.

(** X9. What [run] does to the caller's memory, on every path and in
    both processes: when [run] returns, no block other than the one at
    [output_dataset.data] has changed, and when it returns [false] no block
    at all has changed. *)
Theorem run_memory_effect (filterpath : string) (inputs : list DatasetInfo)
    (output : DatasetInfo) (cast : string) (blob : list byte) (p p' : process)
    (b : bool) :
  run host filterpath inputs output cast blob p = Returns (b, p') ->
  (forall a, a <> data output -> memory p' !! a = memory p !! a)
  /\ (b = false -> memory p' = memory p).
Proof.
  intros H.
  destruct (run_returns_inv _ _ _ _ _ _ _ _ H)
    as (d & p1 & so_file & fs & _ & _ & Hframe & Hcases).
  split; [exact Hframe |]. intros ->.
  destruct Hcases as [(_ & _ & Hm & _) | [(_ & _ & _ & Hm & _) | [(_ & _ & _ & _ & Hm)
                     | (_ & _ & _ & _ & [Hb | Hm])]]];
    try exact Hm. discriminate.
Qed.

(** X10. In the process in which [fork] returns 0, [run] never returns
    [true] and never changes the caller's memory: the child ends by an
    exit or a signal, or returns [false]. *)
Theorem run_in_child (filterpath : string) (inputs : list DatasetInfo)
    (output : DatasetInfo) (cast : string) (blob : list byte) (p p' : process)
    (b : bool) :
  fork host = 0 ->
  run host filterpath inputs output cast blob p = Returns (b, p') ->
  b = false /\ memory p' = memory p.
Proof.
  intros Hpid H.
  destruct (run_returns_inv _ _ _ _ _ _ _ _ H)
    as (d & p1 & so_file & fs & _ & _ & _ & Hcases).
  destruct Hcases as [(_ & -> & Hm & _) | [(_ & _ & -> & Hm & _) | [(_ & _ & _ & -> & Hm)
                     | (_ & _ & Hnz & _)]]];
    try (split; [reflexivity | exact Hm]). contradiction.
Qed.

(** X11. Outside the child, [run] leaves no shared object behind: once the
    decompressed bytes have been written to [so_file], the file is unlinked
    whenever [run] returns, with [true] as with [false]. *)
Theorem run_unlinks_shared_object (filterpath : string) (inputs : list DatasetInfo)
    (output : DatasetInfo) (cast : string) (blob d : list byte) (p p1 p' : process)
    (so_file : string) (fs : gmap string file) (b : bool) :
  decompressBuffer (miniz host) blob p = Returns (d, p1) ->
  d <> [] ->
  writeToDisk host d extension (files p1) = (so_file, fs) ->
  so_file <> ""%string ->
  fork host <> 0 ->
  run host filterpath inputs output cast blob p = Returns (b, p') ->
  files p' !! so_file = None.
Proof.
  intros Hdec Hd Hwrite Hso Hpid H.
  destruct (run_returns_inv _ _ _ _ _ _ _ _ H)
    as (d' & p1' & so_file' & fs' & Hdec' & Hwrite' & _ & Hcases).
  rewrite Hdec in Hdec'. injection Hdec' as <- <-.
  rewrite Hwrite in Hwrite'. injection Hwrite' as <- <-.
  destruct Hcases as [(-> & _) | [(_ & -> & _) | [(_ & _ & Hz & _)
                     | (_ & _ & _ & Hgone & _)]]];
    try contradiction. exact Hgone.
Qed.

(** X12. A blob whose trailer is zero is never run: when miniz writes
    nothing into the empty destination, [run] returns [false] on the
    compressed bytes [c] followed by eight zero bytes, whatever [c] is, and
    changes neither the caller's memory nor the file system. This is the
    blob [compile] returns when the compiler leaves no shared object. *)
Theorem run_rejects_zero_trailer (filterpath : string) (inputs : list DatasetInfo)
    (output : DatasetInfo) (cast : string) (c : list byte) (p : process) :
  Z.of_nat (length c) < 2 ^ 64 ->
  snd (mz_uncompress (miniz host) 0 c) = [] ->
  exists p',
    run host filterpath inputs output cast (c ++ le_split 8 0) p = Returns (false, p')
    /\ memory p' = memory p /\ files p' = files p.
Proof.
  intros Hc Hout.
  assert (Hdec : exists p1,
             decompressBuffer (miniz host) (c ++ le_split 8 0) p = Returns ([], p1)
             /\ memory p1 = memory p /\ files p1 = files p).
  { unfold decompressBuffer.
    rewrite (bind_lift_returns _ _ _ (le_split 8 0))
      by (apply load_trailer; [apply length_le_split | exact Hc]).
    rewrite le_combine_split_8 by lia.
    rewrite length_app, length_le_split.
    replace (size_t (Z.of_nat (length c + 8) - 8)) with (Z.of_nat (length c))
      by (unfold size_t; rewrite Z.mod_small; lia).
    rewrite Nat2Z.id, take_app_length.
    destruct (mz_uncompress (miniz host) 0 c) as [status out]. simpl in Hout. subst out.
    rewrite (bind_lift_returns _ _ _ []) by reflexivity.
    destruct (negb (status =? Z_OK)); eexists; split; try reflexivity;
      split; reflexivity. }
  destruct Hdec as (p1 & Hdec & Hm & Hf).
  unfold run. rewrite (bind_returns _ _ _ _ _ Hdec). cbn [length Nat.eqb].
  eexists. split; [reflexivity |]. simpl. split; assumption.
Qed.

End RunPaths.

(** ** The scanner on lines without a complete literal *)

(** X13. What the scanner makes of a line that has [lib.getData] and no
    complete string literal after it. With no double quote after the call,
    [start] is [npos], [n + start + 1] wraps around to [n], and the name is
    the rest of the line from [lib.getData] on; with one double quote only,
    the name is everything after that quote. *)
Theorem scan_line_without_literal (pre rest : list ascii) (output : list (list ascii))
    (p : process) :
  let line := pre ++ api_call ++ rest in
  size line < npos ->
  first_occurrence api_call line (length pre) ->
  (quote_free rest ->
   scan_line line output p = Returns (output ++ [api_call ++ rest], p))
  /\ (forall mid tail, rest = mid ++ dquote ++ tail -> quote_free mid -> quote_free tail ->
      scan_line line output p = Returns (output ++ [tail], p)).
Proof.
  intros line Hsize Hfirst.
  destruct (scan_line_incomplete_literal pre rest output p Hsize Hfirst) as [Hnone Hone].
  split; [exact Hnone | exact Hone].
Qed.

(** ** The lines of the preprocessor's output *)

(** One round of the loop appends at most one name and leaves the process
    as it is. *)
Lemma scan_line_returns_inv (line : list ascii) (output output' : list (list ascii))
    (p p' : process) :
  scan_line line output p = Returns (output', p') ->
  p' = p /\ (output' = output \/ exists name, output' = output ++ [name]).
Proof.
  unfold scan_line. destruct (negb (find line api_call =? npos)).
  - intros H.
    apply bind_returns_inv in H as (tail & p1 & H1 & H).
    apply lift_returns_inv in H1 as [_ ->].
    apply bind_returns_inv in H as (after & p2 & H2 & H).
    apply lift_returns_inv in H2 as [_ ->].
    apply bind_returns_inv in H as (tail' & p3 & H3 & H).
    apply lift_returns_inv in H3 as [_ ->].
    apply bind_returns_inv in H as (name & p4 & H4 & H).
    apply lift_returns_inv in H4 as [_ ->].
    unfold ret in H. injection H as <- <-.
    split; [reflexivity | right; exists name; reflexivity].
  - unfold ret. intros H. injection H as <- <-. split; [reflexivity | left; reflexivity].
Qed.

Lemma scan_lines_returns_inv (lines : list (list ascii))
    (output output' : list (list ascii)) (p p' : process) :
  scan_lines lines output p = Returns (output', p') ->
  p' = p /\ (length output <= length output' <= length output + length lines)%nat.
Proof.
  revert output p. induction lines as [| line lines IH]; intros output p; simpl.
  - unfold ret. intros H. injection H as <- <-. split; [reflexivity | lia].
  - intros H. apply bind_returns_inv in H as (out1 & p1 & Hline & H).
    apply scan_line_returns_inv in Hline as [-> Hout].
    apply IH in H as [-> Hlen]. split; [reflexivity |].
    destruct Hout as [-> | [name ->]]; [lia |].
    rewrite length_app in Hlen. simpl in Hlen. lia.
Qed.

(** Every line is a piece of the text it is cut from. *)
Lemma getlines_from_pieces (cur input : list ascii) :
  Forall (fun line => exists before after, rev cur ++ input = before ++ line ++ after)
         (getlines_from cur input).
Proof.
  revert cur. induction input as [| c rest IH]; intros cur; simpl.
  - destruct cur as [| c cur]; constructor; [| constructor].
    exists [], []. rewrite !app_nil_r. reflexivity.
  - destruct (Ascii.eqb c "010").
    + constructor.
      * exists [], (c :: rest). reflexivity.
      * eapply Forall_impl; [apply (IH []) |]. simpl.
        intros line (before & after & ->).
        exists (rev cur ++ c :: before), after. rewrite <- !app_assoc. reflexivity.
    + eapply Forall_impl; [apply (IH (c :: cur)) |]. simpl.
      intros line (before & after & Heq). exists before, after.
      rewrite <- Heq, <- app_assoc. reflexivity.
Qed.

(** An occurrence in a piece of a text is an occurrence in the text. *)
Lemma occurs_at_piece (t before line after : list ascii) (i : nat) :
  t <> [] -> occurs_at t line i -> occurs_at t (before ++ line ++ after) (length before + i).
Proof.
  unfold occurs_at. intros Ht H.
  rewrite <- drop_drop, drop_app_length.
  assert (Hi : (i + length t <= length line)%nat).
  { apply (f_equal (@length ascii)) in H. rewrite length_take, length_drop in H.
    destruct t; [contradiction |]. cbn [length] in *. lia. }
  rewrite drop_app_le by lia. rewrite take_app_le; [exact H |].
  rewrite length_drop. lia.
Qed.

Section ScannerPaths.
Variable host : Host.

(** X14. In the parent, [udfDatasetNames] returns one name per line at
    most, and leaves the process as it is; and on a preprocessor output in
    which [lib.getData] does not occur it returns the empty list. *)
Theorem udfDatasetNames_per_line (udf_file : string) (p : process) :
  let input := piped host ["g++"; "-fpreprocessed"; "-dD"; "-E"; udf_file]%string
                 (files p) in
  0 <= pipe host ->
  0 < fork host ->
  (forall names p', udfDatasetNames host udf_file p = Returns (names, p') ->
     p' = p /\ (length names <= length (getlines input))%nat)
  /\ ((forall i, ~ occurs_at api_call input i) ->
      udfDatasetNames host udf_file p = Returns ([], p)).
Proof.
  intros input Hpipe Hpid.
  destruct (pid_parent _ Hpid) as [Hz Hpos].
  assert (Hrun : udfDatasetNames host udf_file p = scan_lines (getlines input) [] p).
  { unfold udfDatasetNames.
    replace (pipe host <? 0) with false by (symmetry; apply Z.ltb_ge; lia).
    rewrite Hz, Hpos. reflexivity. }
  rewrite Hrun. split.
  - intros names p' H. apply scan_lines_returns_inv in H as [-> Hlen].
    split; [reflexivity | simpl in Hlen; lia].
  - intros Hnone.
    assert (Hlines : Forall (fun line => forall i, ~ occurs_at api_call line i)
                       (getlines input)).
    { eapply Forall_impl; [apply getlines_from_pieces |]. simpl.
      intros line (before & after & Heq) i Hi. apply (Hnone (length before + i)%nat).
      rewrite Heq. apply occurs_at_piece; [discriminate | exact Hi]. }
    clear Hrun. induction Hlines as [| line lines Hline _ IH]; [reflexivity |].
    cbn [scan_lines]. unfold bind at 1. unfold scan_line, find.
    rewrite (find_from_none _ _ _ Hline). exact IH.
Qed.

(** X15. Without a child there are no names: when [pipe] fails,
    [udfDatasetNames] writes one diagnostic line and returns the empty list
    without forking; when [fork] fails it returns the empty list and writes
    nothing. *)
Theorem udfDatasetNames_without_child (udf_file : string) (p : process) :
  (pipe host < 0 ->
   udfDatasetNames host udf_file p
   = Returns ([], Process (files p) (stderr p ++ ["Failed to create pipe"%string])
                          (memory p)))
  /\ (0 <= pipe host -> fork host < 0 ->
      udfDatasetNames host udf_file p = Returns ([], p)).
Proof.
  split.
  - intros H. unfold udfDatasetNames.
    replace (pipe host <? 0) with true by (symmetry; apply Z.ltb_lt; lia).
    reflexivity.
  - intros Hpipe Hpid. destruct (pid_failure _ Hpid) as [Hz Hneg].
    unfold udfDatasetNames.
    replace (pipe host <? 0) with false by (symmetry; apply Z.ltb_ge; lia).
    rewrite Hz, Hneg. reflexivity.
Qed.

End ScannerPaths.

Lemma not_elem_of_rev (x : ascii) (l : list ascii) : x ∉ l -> x ∉ rev l.
Proof.
  intros H Hin. apply H. apply list_elem_of_In, in_rev, list_elem_of_In. exact Hin.
Qed.

(** X16. The lines [std::getline] delivers, each followed by a newline,
    make up the text again, with a newline added when the text does not end
    with one; and no line contains a newline. *)
Theorem getlines_join (input : list ascii) :
  let newline := "010"%char in
  concat (map (fun line => line ++ [newline]) (getlines input))
  = match last input with
    | Some c => if Ascii.eqb c newline then input else input ++ [newline]
    | None => []
    end
  /\ Forall (fun line => newline ∉ line) (getlines input).
Proof.
  intros newline.
  assert (Hgen : forall cur,
             newline ∉ cur ->
             concat (map (fun line => line ++ [newline]) (getlines_from cur input))
             = match last (rev cur ++ input) with
               | Some c => if Ascii.eqb c newline then rev cur ++ input
                           else (rev cur ++ input) ++ [newline]
               | None => []
               end
             /\ Forall (fun line => newline ∉ line) (getlines_from cur input)).
  { induction input as [| c rest IH]; intros cur Hcur; simpl.
    - rewrite app_nil_r. destruct cur as [| c cur]; simpl.
      + split; [reflexivity | constructor].
      + rewrite last_snoc.
        destruct (Ascii.eqb_spec c newline) as [-> | Hc].
        * destruct Hcur. left.
        * split; [rewrite app_nil_r; reflexivity |].
          constructor; [| constructor].
          apply (not_elem_of_rev _ (c :: cur)). exact Hcur.
    - destruct (Ascii.eqb_spec c "010") as [-> | Hc].
      + destruct (IH [] ltac:(apply not_elem_of_nil)) as [Hjoin Hall].
        simpl in Hjoin. split.
        * cbn [map concat]. rewrite Hjoin.
          replace (rev cur ++ "010"%char :: rest)
            with ((rev cur ++ ["010"%char]) ++ rest) by (rewrite <- app_assoc; reflexivity).
          destruct rest as [| c' rest'] using rev_ind.
          -- rewrite !app_nil_r, last_snoc. reflexivity.
          -- rewrite !last_snoc, app_assoc, last_snoc.
             destruct (Ascii.eqb c' newline); rewrite <- ?app_assoc; reflexivity.
        * constructor; [| exact Hall].
          apply not_elem_of_rev. exact Hcur.
      + assert (Hcur' : newline ∉ c :: cur).
        { intros H. apply elem_of_cons in H as [H | H];
            [apply Hc; symmetry; exact H | contradiction]. }
        destruct (IH (c :: cur) Hcur') as [Hjoin Hall].
        simpl in Hjoin. rewrite <- app_assoc in Hjoin. split; assumption. }
  apply (Hgen []). apply not_elem_of_nil.
Qed.

(** ** The allowlist after the constructor *)

(** X21. The paths the constructor allows are the entries without a [*],
    and the paths [glob] finds for the entries with one when it returns 0:
    an entry with a [*] allows no path by itself. A list without any [*] is
    left as it is, and [glob] is not consulted for it. *)
Theorem allowlist_after_constructor (glob : string -> Z -> Z * list string)
    (lib : library) (path : string) :
  (In path (files_allowed (syscall_intercept_init glob lib))
   <-> (In path (files_allowed lib) /\ "*"%char ∉ list_ascii_of_string path)
       \/ (exists pattern,
             In pattern (files_allowed lib)
             /\ "*"%char ∈ list_ascii_of_string pattern
             /\ fst (glob pattern GLOB_NOSORT) = 0
             /\ In path (snd (glob pattern GLOB_NOSORT))))
  /\ (Forall (fun entry => "*"%char ∉ list_ascii_of_string entry) (files_allowed lib) ->
      files_allowed (syscall_intercept_init glob lib) = files_allowed lib).
Proof.
  assert (Hinit : files_allowed (syscall_intercept_init glob lib)
                  = concat (map (expansion glob) (files_allowed lib))).
  { unfold syscall_intercept_init. cbn [files_allowed].
    apply (fold_expand_entry glob (files_allowed lib) []). }
  rewrite Hinit. split.
  - rewrite in_concat. split.
    + intros (paths & Hpaths & Hin). apply in_map_iff in Hpaths as (entry & <- & Hentry).
      unfold expansion in Hin.
      destruct (decide ("*"%char ∈ list_ascii_of_string entry)) as [Hstar | Hstar].
      * destruct (fst (glob entry GLOB_NOSORT) =? 0) eqn:Hrc; [| destruct Hin].
        apply Z.eqb_eq in Hrc. right. exists entry. repeat split; assumption.
      * left. destruct Hin as [<- | []]. split; assumption.
    + intros [[Hin Hstar] | (pattern & Hin & Hstar & Hrc & Hfound)].
      * exists [path]. split; [| left; reflexivity].
        apply in_map_iff. exists path. split; [| exact Hin].
        unfold expansion. rewrite decide_False by exact Hstar. reflexivity.
      * exists (snd (glob pattern GLOB_NOSORT)). split; [| exact Hfound].
        apply in_map_iff. exists pattern. split; [| exact Hin].
        unfold expansion. rewrite decide_True by exact Hstar. rewrite Hrc. reflexivity.
  - generalize (files_allowed lib). intros entries Hliteral.
    induction Hliteral as [| entry entries Hentry _ IH]; [reflexivity |].
    cbn [map concat]. rewrite IH. unfold expansion.
    rewrite decide_False by exact Hentry. reflexivity.
Qed.

(** X22. The policy of the library as it is built: whatever the file
    system holds, once the library is loaded a [stat], [lstat], [open] or
    [openat] reaches the kernel exactly when its path is
    [/etc/resolv.conf]; on any other path it returns [-EPERM]. *)
Theorem default_policy (glob : string -> Z -> Z * list string) (cstring : Z -> string)
    (kernel : Z -> Z -> Z -> Z -> Z -> Z -> Z -> Z)
    (uninit syscall_nr arg0 arg1 arg2 arg3 arg4 arg5 : Z) :
  let call := fst (intercepted (loaded glob) cstring kernel uninit
                     syscall_nr arg0 arg1 arg2 arg3 arg4 arg5) in
  let decided path :=
    call = if decide (path = "/etc/resolv.conf"%string)
           then kernel syscall_nr arg0 arg1 arg2 arg3 arg4 arg5
           else - EPERM in
  (syscall_nr = SYS_stat \/ syscall_nr = SYS_lstat \/ syscall_nr = SYS_open ->
   decided (cstring arg0))
  /\ (syscall_nr = SYS_openat -> decided (cstring arg1)).
Proof.
  intros call decided.
  assert (Hdecided : forall path,
             syscall_intercept (files_allowed (loaded glob)) cstring
               syscall_nr arg0 arg1 arg2 arg3 arg4 arg5 uninit
             = test_file_ok ["/etc/resolv.conf"%string] path uninit ->
             decided path).
  { intros path Hhook. subst decided call. cbv beta.
    unfold intercepted.
    change (intercept_hook_point (loaded glob)) with (Some syscall_intercept).
    cbv iota beta. rewrite Hhook. cbn [test_file_ok].
    destruct (String.eqb_spec "/etc/resolv.conf" path) as [<- | Hne].
    - rewrite decide_True by reflexivity. reflexivity.
    - rewrite decide_False by congruence. reflexivity. }
  split.
  - intros [-> | [-> | ->]]; apply Hdecided; reflexivity.
  - intros ->. apply Hdecided. reflexivity.
Qed.

(** ** The codec on a framed blob *)

Lemma drop_repeat (x : byte) (k n : nat) : drop k (repeat x n) = repeat x (n - k).
Proof.
  revert k. induction n as [| n IH]; intros k; simpl.
  - apply drop_nil.
  - destruct k as [| k]; simpl; [reflexivity | apply IH].
Qed.

(** X23. What [decompressBuffer] makes of the compressed bytes [c] followed
    by a trailer of value [n]. When [n] is more than a [std::string] can
    hold, [resize] throws [std::length_error]: miniz is not called and
    nothing is written. Otherwise, when miniz writes [out] within the [n]
    bytes it is given: on [Z_OK] the result has [n] bytes, the bytes of
    [out] followed by zeroes when miniz wrote fewer than [n]; on any other
    status the result is empty and one diagnostic line carries the
    status. *)
Theorem decompressBuffer_framed (mz : Miniz) (c out : list byte) (n status : Z)
    (p : process) :
  Z.of_nat (length c) < 2 ^ 64 ->
  0 <= n < 2 ^ 64 ->
  (max_size < n ->
   decompressBuffer mz (c ++ le_split 8 n) p = Throws "std::length_error")
  /\ (n <= max_size ->
      mz_uncompress mz n c = (status, out) ->
      Z.of_nat (length out) <= n ->
      decompressBuffer mz (c ++ le_split 8 n) p
      = if status =? Z_OK
        then Returns (out ++ repeat Byte.x00 (Z.to_nat n - length out), p)
        else Returns ([], Process (files p)
                            (stderr p ++ ["Failed to uncompress shared library object: "
                                          +:+ pretty status])
                            (memory p))).
Proof.
  intros Hc Hn.
  assert (Hhead : decompressBuffer mz (c ++ le_split 8 n) p
                  = (uncompressed <- lift (resize [] n) ;;
                     let '(status, out) := mz_uncompress mz n c in
                     uncompressed <- lift (store uncompressed 0 out) ;;
                     if negb (status =? Z_OK) then
                       fprintf_stderr ("Failed to uncompress shared library object: "
                                       +:+ pretty status) ;;
                       ret []
                     else ret uncompressed) p).
  { unfold decompressBuffer.
    rewrite (bind_lift_returns _ _ _ (le_split 8 n))
      by (apply load_trailer; [apply length_le_split | exact Hc]).
    rewrite le_combine_split_8 by exact Hn.
    rewrite length_app, length_le_split.
    replace (size_t (Z.of_nat (length c + 8) - 8)) with (Z.of_nat (length c))
      by (unfold size_t; rewrite Z.mod_small; lia).
    rewrite Nat2Z.id, take_app_length. reflexivity. }
  rewrite Hhead. split.
  - intros Hbig. unfold bind, lift. rewrite (resize_throws _ _ Hbig). reflexivity.
  - intros Hsmall Hun Hout.
    rewrite (bind_lift_returns _ _ _ _ (resize_returns _ _ Hsmall)), Hun.
    rewrite (bind_lift_returns _ _ _ (out ++ repeat Byte.x00 (Z.to_nat n - length out))).
    + destruct (status =? Z_OK); reflexivity.
    + rewrite store_at_start by (rewrite resized_nil_length; lia).
      unfold resized. rewrite take_nil, app_nil_l, Nat.sub_0_r, drop_repeat. reflexivity.
Qed.

(** ** The system call filter *)

Import SeccompFilter.

(** The uses of [ALLOW] on a list of rules: when every rule is accepted
    the context is the list; when a rule is refused after the rules [done]
    were accepted, the context holds [done]. *)
Lemma allow_each_accepted (lib : Libseccomp) (uses ctx : list rule) :
  (forall done use rest, uses = done ++ use :: rest ->
     0 <= seccomp_rule_add lib (ctx ++ done) use) ->
  allow_each lib ctx uses = (ctx ++ uses, None).
Proof.
  revert ctx. induction uses as [| use uses IH]; intros ctx Hall; simpl.
  - rewrite app_nil_r. reflexivity.
  - specialize (Hall [] use uses eq_refl) as Hfirst. rewrite app_nil_r in Hfirst.
    replace (seccomp_rule_add lib ctx use <? 0) with false
      by (symmetry; apply Z.ltb_ge; exact Hfirst).
    rewrite IH.
    + rewrite <- app_assoc. reflexivity.
    + intros done use' rest ->. rewrite <- app_assoc.
      apply (Hall (use :: done) use' rest). reflexivity.
Qed.

Lemma allow_each_refused (lib : Libseccomp) (done : list rule) (use : rule)
    (rest ctx : list rule) :
  (forall done' use' rest', done = done' ++ use' :: rest' ->
     0 <= seccomp_rule_add lib (ctx ++ done') use') ->
  seccomp_rule_add lib (ctx ++ done) use < 0 ->
  allow_each lib ctx (done ++ use :: rest) = (ctx ++ done, Some (syscall use)).
Proof.
  revert ctx. induction done as [| first done IH]; intros ctx Hall Hrefused; simpl.
  - rewrite app_nil_r in *.
    replace (seccomp_rule_add lib ctx use <? 0) with true
      by (symmetry; apply Z.ltb_lt; exact Hrefused).
    reflexivity.
  - specialize (Hall [] first done eq_refl) as Hfirst. rewrite app_nil_r in Hfirst.
    replace (seccomp_rule_add lib ctx first <? 0) with false
      by (symmetry; apply Z.ltb_ge; exact Hfirst).
    rewrite IH.
    + rewrite <- app_assoc. reflexivity.
    + intros done' use' rest' ->. rewrite <- app_assoc.
      apply (Hall (first :: done') use' rest'). reflexivity.
    + rewrite <- app_assoc. exact Hrefused.
Qed.

(** The context never holds anything but the rules accepted so far, which
    are the first rules of the list. *)
Lemma allow_each_prefix (lib : Libseccomp) (uses ctx ctx' : list rule)
    (failed : option string) :
  allow_each lib ctx uses = (ctx', failed) ->
  exists done rest, uses = done ++ rest /\ ctx' = ctx ++ done
    /\ (failed = None -> rest = []).
Proof.
  revert ctx. induction uses as [| use uses IH]; intros ctx; simpl.
  - intros H. injection H as <- <-. exists [], [].
    split; [reflexivity | split; [symmetry; apply app_nil_r | reflexivity]].
  - destruct (seccomp_rule_add lib ctx use <? 0).
    + intros H. injection H as <- <-. exists [], (use :: uses).
      split; [reflexivity | split; [symmetry; apply app_nil_r | discriminate]].
    + intros H. apply IH in H as (done & rest & -> & -> & Hrest).
      exists (use :: done), rest.
      split; [reflexivity | split; [rewrite <- app_assoc; reflexivity | exact Hrest]].
Qed.

(** X17. [syscall_filter_init] returns [true] only when every rule was
    accepted, the filter loaded is the complete list of the thirty rules,
    [seccomp_load] returned 0, the context was released and nothing was
    written to the standard error stream. *)
Theorem syscall_filter_init_true (lib : Libseccomp) (state : filter_state) :
  syscall_filter_init lib = (true, state) ->
  installed state = Some allowed
  /\ seccomp_load lib allowed = 0
  /\ released state = true
  /\ diagnostics state = [].
Proof.
  unfold syscall_filter_init.
  destruct (allow_each lib [] allowed) as [ctx [name |]] eqn:E; [discriminate |].
  apply allow_each_prefix in E as (done & rest & Huses & -> & Hrest).
  rewrite (Hrest eq_refl), app_nil_r in Huses. subst done. simpl (_ ++ _).
  intros H. injection H as Hret <-. apply Z.eqb_eq in Hret.
  cbn [installed released diagnostics]. rewrite Hret. repeat split.
Qed.

(** X18. When libseccomp refuses a rule, [syscall_filter_init] stops at
    that rule: it writes the one diagnostic line that names the system
    call, returns [false], and neither loads a filter nor releases the
    context, which holds the rules accepted before. *)
Theorem syscall_filter_init_refused (lib : Libseccomp) (done : list rule) (use : rule)
    (rest : list rule) :
  allowed = done ++ use :: rest ->
  (forall done' use' rest', done = done' ++ use' :: rest' ->
     0 <= seccomp_rule_add lib done' use') ->
  seccomp_rule_add lib done use < 0 ->
  syscall_filter_init lib
  = (false,
     FilterState ["Failed to configure seccomp rule for '" +:+ syscall use +:+ "' syscall"]
                 done None false).
Proof.
  intros Hallowed Hdone Hrefused. unfold syscall_filter_init.
  rewrite Hallowed, (allow_each_refused lib done use rest []); [reflexivity | |];
    assumption.
Qed.

(** X19. When libseccomp accepts every rule, [syscall_filter_init] loads
    the thirty rules in the order of the source and releases the context;
    it returns whether [seccomp_load] returned 0, and writes a diagnostic
    line exactly when [seccomp_load] returned a negative value. *)
Theorem syscall_filter_init_loads (lib : Libseccomp) :
  (forall done use rest, allowed = done ++ use :: rest ->
     0 <= seccomp_rule_add lib done use) ->
  syscall_filter_init lib
  = (seccomp_load lib allowed =? 0,
     FilterState (if seccomp_load lib allowed <? 0
                  then ["Failed to load seccomp filter: " +:+ strerror_errno lib]
                  else [])
                 allowed (Some allowed) true).
Proof.
  intros Hall. unfold syscall_filter_init.
  rewrite (allow_each_accepted lib allowed []); [reflexivity | exact Hall].
Qed.

(** A filter allows a system call exactly when one of its rules is for
    that system call and has all its comparisons hold. *)
Lemma filter_action_allow (rules : list rule) (name : string) (args : list Z) :
  filter_action rules name args = SCMP_ACT_ALLOW
  <-> exists r, In r rules /\ syscall r = name
                /\ forallb (fun c => holds c args) (comparisons r) = true.
Proof.
  unfold filter_action.
  destruct (existsb _ rules) eqn:E.
  - split; [intros _ | reflexivity].
    apply existsb_exists in E as (r & Hin & Hr).
    apply andb_true_iff in Hr as [Hname Hcmp]. apply String.eqb_eq in Hname.
    exists r. repeat split; assumption.
  - split; [discriminate |]. intros (r & Hin & Hname & Hcmp).
    assert (Htrue : existsb (fun r => String.eqb (syscall r) name
                               && forallb (fun c => holds c args) (comparisons r))
                      rules = true).
    { apply existsb_exists. exists r. split; [exact Hin |].
      apply andb_true_iff. split; [apply String.eqb_eq; exact Hname | exact Hcmp]. }
    congruence.
Qed.

(** X20. What the filter of [syscall_filter_init] decides. A system call
    that is not named in the list kills the process. [ioctl] is allowed
    exactly when its second argument is [FIONREAD]. [open] and [openat] are
    allowed whatever their flags: the comparison masks the flags with
    [O_RDONLY], which is 0, so that every value passes. *)
Theorem filter_decisions (name : string) (args : list Z) :
  (~ In name (map syscall allowed) ->
   filter_action allowed name args = SCMP_ACT_KILL_PROCESS)
  /\ (filter_action allowed "ioctl" args = SCMP_ACT_ALLOW <-> nth 1 args 0 = FIONREAD)
  /\ filter_action allowed "open" args = SCMP_ACT_ALLOW
  /\ filter_action allowed "openat" args = SCMP_ACT_ALLOW.
Proof.
  split; [| split; [| split]].
  - intros Hname.
    destruct (filter_action allowed name args) eqn:E; [reflexivity |].
    apply filter_action_allow in E as (r & Hin & Hr & _).
    destruct Hname. rewrite <- Hr. apply in_map. exact Hin.
  - unfold filter_action. cbn [allowed existsb String.eqb Ascii.eqb Bool.eqb syscall
                               comparisons forallb andb orb].
    unfold holds. cbn [SCMP_A1 arg op datum_a].
    rewrite andb_true_r, orb_false_r.
    destruct (Z.eqb_spec (nth 1 args 0) FIONREAD) as [H | H];
      (split; [intros E; first [exact H | discriminate E] | intros E; first [reflexivity | contradiction]]).
  - apply filter_action_allow.
    exists (Rule "open" [SCMP_A1 SCMP_CMP_MASKED_EQ O_RDONLY O_RDONLY]).
    split; [unfold allowed; simpl; tauto | split; [reflexivity |]].
    cbn [comparisons forallb]. unfold holds. cbn [SCMP_A1 arg op datum_a datum_b].
    unfold O_RDONLY. rewrite Z.land_0_r. reflexivity.
  - apply filter_action_allow.
    exists (Rule "openat" [SCMP_A2 SCMP_CMP_MASKED_EQ O_RDONLY O_RDONLY]).
    split; [unfold allowed; simpl; tauto | split; [reflexivity |]].
    cbn [comparisons forallb]. unfold holds. cbn [SCMP_A2 arg op datum_a datum_b].
    unfold O_RDONLY. rewrite Z.land_0_r. reflexivity.
Qed.

(** ** The properties above on the concrete inputs *)

Lemma compressBuffer_blob_framed_witness :
  (8 <= length example_blob)%nat
  /\ drop (length example_blob - 8) example_blob = le_split 8 (Z.of_nat (length abc))
  /\ le_combine (drop (length example_blob - 8) example_blob)
     = size_t (Z.of_nat (length abc))
  /\ empty_process = empty_process.
Proof.
  apply (compressBuffer_blob_framed stored_codec abc example_blob empty_process
           empty_process).
  - vm_compute. reflexivity.
  - discriminate.
Defined.

Lemma compile_blob_empty_or_framed_witness :
  example_blob = [] \/ (8 <= length example_blob)%nat.
Proof.
  apply (compile_blob_empty_or_framed (with_compiler (example_host 7 true two_calls))
           "udf.cpp" "template.cpp" example_blob empty_process empty_process).
  vm_compute. reflexivity.
Defined.

Lemma compile_reported_failures_witness :
  compile (example_host (-1) true two_calls) "udf.cpp" "template.cpp" empty_process
  = Returns ([], Process (<["/tmp/udf-assembled.cpp"%string := File [] 420]> ∅)
                   (stderr empty_process ++ ["Failed to execute g++"%string])
                   (memory empty_process)).
Proof.
  apply (proj2 (compile_reported_failures (example_host (-1) true two_calls) "udf.cpp"
                  "template.cpp" "/tmp/udf-assembled.cpp"
                  (<["/tmp/udf-assembled.cpp"%string := File [] 420]> ∅) empty_process
                  eq_refl)).
  - discriminate.
  - reflexivity.
Defined.

Lemma run_memory_effect_witness :
  memory (returned_process
            (run (example_host 7 true two_calls) "file.h5" [] example_output "int32"
               example_blob example_process)) !! 5
  = memory example_process !! 5.
Proof.
  destruct (run_memory_effect (example_host 7 true two_calls) "file.h5" [] example_output
              "int32" example_blob example_process
              (returned_process
                 (run (example_host 7 true two_calls) "file.h5" [] example_output "int32"
                    example_blob example_process))
              true ltac:(vm_compute; reflexivity)) as [Hframe _].
  apply Hframe. discriminate.
Defined.

Lemma run_in_child_witness :
  false = false
  /\ memory (returned_process
               (run (example_host 0 false two_calls) "file.h5" [] example_output "int32"
                  example_blob example_process))
     = memory example_process.
Proof.
  apply (run_in_child (example_host 0 false two_calls) "file.h5" [] example_output
           "int32" example_blob example_process).
  - reflexivity.
  - vm_compute. reflexivity.
Defined.

Lemma run_unlinks_shared_object_witness :
  files (returned_process
           (run (example_host 7 true two_calls) "file.h5" [] example_output "int32"
              example_blob example_process)) !! "/tmp/udf-shlib.cpp"%string
  = None.
Proof.
  apply (run_unlinks_shared_object (example_host 7 true two_calls) "file.h5" []
           example_output "int32" example_blob abc example_process example_process
           (returned_process
              (run (example_host 7 true two_calls) "file.h5" [] example_output "int32"
                 example_blob example_process))
           "/tmp/udf-shlib.cpp" (<["/tmp/udf-shlib.cpp"%string := File abc 384]> ∅) true).
  - vm_compute. reflexivity.
  - discriminate.
  - reflexivity.
  - discriminate.
  - discriminate.
  - vm_compute. reflexivity.
Defined.

Lemma run_rejects_zero_trailer_witness :
  exists p',
    run (example_host 7 true two_calls) "file.h5" [] example_output "int32"
        ([] ++ le_split 8 0) example_process
    = Returns (false, p')
    /\ memory p' = memory example_process /\ files p' = files example_process.
Proof.
  apply (run_rejects_zero_trailer (example_host 7 true two_calls) "file.h5" []
           example_output "int32" [] example_process).
  - vm_compute. reflexivity.
  - reflexivity.
Defined.

Lemma scan_line_without_literal_witness :
  scan_line ([] ++ api_call ++ list_ascii_of_string "(x)") [] empty_process
  = Returns ([] ++ [api_call ++ list_ascii_of_string "(x)"], empty_process).
Proof.
  apply (proj1 (scan_line_without_literal [] (list_ascii_of_string "(x)") []
                  empty_process ltac:(vm_compute; reflexivity)
                  (conj eq_refl (fun j (Hj : (j < 0)%nat) => match Nat.nlt_0_r j Hj with end)))).
  repeat constructor; discriminate.
Defined.

Lemma udfDatasetNames_per_line_witness :
  empty_process = empty_process
  /\ (length [list_ascii_of_string "temp"; list_ascii_of_string "rh"]
      <= length (getlines two_calls))%nat.
Proof.
  apply (proj1 (udfDatasetNames_per_line (example_host 7 true two_calls) "udf.cpp"
                  empty_process ltac:(vm_compute; discriminate) eq_refl)).
  vm_compute. reflexivity.
Defined.

Lemma udfDatasetNames_without_child_witness :
  udfDatasetNames (example_host (-1) true two_calls) "udf.cpp" empty_process
  = Returns ([], empty_process).
Proof.
  apply (proj2 (udfDatasetNames_without_child (example_host (-1) true two_calls)
                  "udf.cpp" empty_process)).
  - vm_compute. discriminate.
  - reflexivity.
Defined.

Lemma syscall_filter_init_true_witness :
  installed (snd (syscall_filter_init accepting)) = Some allowed
  /\ seccomp_load accepting allowed = 0
  /\ released (snd (syscall_filter_init accepting)) = true
  /\ diagnostics (snd (syscall_filter_init accepting)) = [].
Proof.
  apply (syscall_filter_init_true accepting (snd (syscall_filter_init accepting))).
  vm_compute. reflexivity.
Defined.

Lemma syscall_filter_init_refused_witness :
  syscall_filter_init refusing_mmap2
  = (false,
     FilterState ["Failed to configure seccomp rule for 'mmap2' syscall"%string]
                 (take 23 allowed) None false).
Proof.
  apply (syscall_filter_init_refused refusing_mmap2 (take 23 allowed) (Rule "mmap2" [])
           (drop 24 allowed)).
  - reflexivity.
  - intros done' use' rest' Hsplit.
    assert (Hin : In use' (take 23 allowed)) by (rewrite Hsplit; apply in_elt).
    cbn in Hin.
    repeat (destruct Hin as [<- | Hin]; [vm_compute; discriminate |]).
    destruct Hin.
  - reflexivity.
Defined.

Lemma syscall_filter_init_loads_witness :
  syscall_filter_init accepting = (true, FilterState [] allowed (Some allowed) true).
Proof.
  apply (syscall_filter_init_loads accepting).
  intros done use rest _. vm_compute. discriminate.
Defined.

Lemma filter_decisions_witness :
  filter_action allowed "unlink" [0] = SCMP_ACT_KILL_PROCESS.
Proof.
  apply (proj1 (filter_decisions "unlink" [0])).
  cbn. intros H. repeat (destruct H as [H | H]; [discriminate H |]). exact H.
Defined.

Lemma allowlist_after_constructor_witness :
  files_allowed (syscall_intercept_init example_glob (Library files_allowed_init None))
  = files_allowed (Library files_allowed_init None).
Proof.
  apply (proj2 (allowlist_after_constructor example_glob
                  (Library files_allowed_init None) "/etc/resolv.conf")).
  repeat constructor. vm_compute. intros H.
  repeat (apply elem_of_cons in H as [H | H]; [discriminate H |]).
  inversion H.
Defined.

Lemma default_policy_witness :
  fst (intercepted (SandboxLibrary.loaded example_glob) example_cstring
         (fun _ _ _ _ _ _ _ => 3) 0 SYS_open 1 0 0 0 0 0)
  = if decide (example_cstring 1 = "/etc/resolv.conf"%string) then 3 else - EPERM.
Proof.
  apply (proj1 (default_policy example_glob example_cstring (fun _ _ _ _ _ _ _ => 3)
                  0 SYS_open 1 0 0 0 0 0)).
  right. right. reflexivity.
Defined.

Lemma decompressBuffer_framed_witness :
  decompressBuffer stored_codec (abc ++ le_split 8 5) empty_process
  = Returns (abc ++ repeat Byte.x00 (Z.to_nat 5 - length abc), empty_process).
Proof.
  apply (proj2 (decompressBuffer_framed stored_codec abc abc 5 Z_OK empty_process
                  ltac:(vm_compute; reflexivity) ltac:(lia))).
  - vm_compute. discriminate.
  - reflexivity.
  - vm_compute. discriminate.
Defined.
